(** * taco-team-build: version resolution, toolchain cache and the
    build / package sequencing of [lib/taco-team-build/taco-team-build.js].

    The module is embedded as state-passing functions over the module's
    global variables.  What lives outside the repository (Node's [path],
    [fs], [child_process], the [semver] and [glob] packages, the Cordova
    module that is loaded at run time) is gathered in the record [Host];
    every theorem of the sections below holds for an arbitrary host. *)

From stdpp Require Import base strings gmap list pretty.

(** ** JavaScript values the module handles *)

(** A node of the file system, as far as [fs.existsSync] and
    [fs.readFileSync] can tell. Paths are the strings handed to [fs]. *)
Inductive FsNode : Type :=
| Dir
| File (content : string).

(** The process state outside the module's own variables. *)
Record World : Type := MkWorld {
  fs : gmap string FsNode;
  cwd : string;
  env : gmap string string
}.

(** The object that [require] yields for a cordova package. *)
Inductive Cordova : Type :=
| CordovaObj (id : string).

(** A loaded module and its [cordova] property, when it has one. *)
Record Module : Type := MkModule {
  mod_obj : Cordova;
  mod_cordova : option Cordova
}.

(** The [platforms] argument: a string or an array of strings. *)
Inductive Platforms : Type :=
| PStr (p : string)
| PArr (ps : list string).

(** The [args] argument: undefined, an array of options, or an object
    with an array of options per platform. *)
Inductive JsArgs : Type :=
| AUndef
| AArr (opts : list string)
| AObj (per : gmap string (list string)).

(** What [getCallArgs] builds; [options = None] is JavaScript's
    [undefined]. *)
Record CallArgs : Type := MkCallArgs {
  platforms : list string;
  options : option (list string)
}.

(** The argument of [configure] and [setupCordova]; an absent property
    is [None]. *)
Record Options : Type := MkOptions {
  obj_cordovaCache : option string;
  obj_cordovaVersion : option string;
  obj_projectPath : option string
}.

(** The result of a synchronous call: a value or a thrown value. *)
Inductive Res (A : Type) : Type :=
| Ok (a : A)
| Throw (err : string).
Arguments Ok {A} a.
Arguments Throw {A} err.

(** A promise, read once the event loop has nothing left to run. *)
Inductive Promise (A : Type) : Type :=
| Pending
| Fulfilled (a : A)
| Rejected (err : string).
Arguments Pending {A}.
Arguments Fulfilled {A} a.
Arguments Rejected {A} err.

(** What the module does that an observer can see, in order.  [Resolves]
    and [Rejects] record the settling of the promise of the call before
    them (a command run by [exec] or a call into the Cordova module). *)
Inductive Event : Type :=
| ConsoleLog (msg : string)
| ConsoleWarn (msg : string)
| ConsoleError (msg : string)
| Exec (cmd : string) (opt_cwd : option string)
| PluginAdd (c : Cordova) (src : string)
| PlatformAdd (c : Cordova) (platform : string)
| BuildCall (c : Cordova) (callArgs : CallArgs)
| Resolves
| Rejects (err : string)
| Uncaught (msg : string).

(** The module's global variables (lines 26-31), the process around
    them and the trace of events so far (most recent last). *)
Record State : Type := MkState {
  cordovaCache : string;
  defaultCordovaVersion : string;
  projectPath : string;
  cordovaVersion : option string;
  loadedCordovaVersion : option string;
  cdv : option Cordova;
  world : World;
  trace : list Event
}.

#[global] Instance FsNode_eq_dec : EqDecision FsNode.
Proof. solve_decision. Defined.
#[global] Instance Cordova_eq_dec : EqDecision Cordova.
Proof. solve_decision. Defined.
#[global] Instance CallArgs_eq_dec : EqDecision CallArgs.
Proof. solve_decision. Defined.
#[global] Instance Event_eq_dec : EqDecision Event.
Proof. solve_decision. Defined.

(** ** The external collaborators *)

Record Host : Type := MkHost {
  (** [path.join] on string arguments *)
  path_join : list string -> string;
  (** [path.resolve(p)], which reads the working directory *)
  path_resolve : string -> string -> string;
  path_dirname : string -> string;
  (** [path.basename(p, ext)] *)
  path_basename : string -> string -> string;
  (** [semver.lt]; [None] is the TypeError on an invalid version *)
  semver_lt : string -> string -> option bool;
  (** [glob(pattern, cb)]: the error or the matches given to [cb] *)
  glob : string -> World -> string + list string;
  (** [child_process.exec] through [Q.nfbind]: stdout and stderr, or the
      error; a child process can change the files *)
  child_exec : string -> option string -> World -> Promise (string * string) * gmap string FsNode;
  (** the error of [fs.mkdirSync], if it throws *)
  mkdir_error : string -> World -> option string;
  (** the error of [process.chdir], if it throws *)
  chdir_error : string -> World -> option string;
  (** [require(file)] of taco.json, then its [cordova-cli] property *)
  require_taco : string -> World -> Res (option string);
  (** [require(dir)] of the installed package *)
  require_module : string -> World -> Res Module;
  (** [cdv.raw.plugin('add', src)] *)
  raw_plugin_add : Cordova -> string -> World -> Promise unit * World;
  (** [cordova.raw.platform('add', platform)] *)
  raw_platform_add : Cordova -> string -> World -> Promise unit * World;
  (** [cordova.raw.build(callArgs)] *)
  raw_build : Cordova -> CallArgs -> World -> Promise unit * World;
  (** [__dirname] of the module *)
  module_dirname : string
}.

(** ** Constants (lines 14-22) *)

Definition DEFAULT_CORDOVA_VERSION : string := "5.1.1".
Definition SUPPORT_PLUGIN_ID : string := "cordova-plugin-vs-taco-support".
Definition CORDOVA_LIB : string := "cordova-lib".
Definition CORDOVA : string := "cordova".

Definition SUPPORT_PLUGIN (h : Host) : string :=
  path_join h [module_dirname h; "cordova-plugin-vs-taco-support"].

(** ** JavaScript's conversions *)

(** A double quote, as a string of one character. *)
Definition dquote : string := String (Ascii.ascii_of_nat 34) EmptyString.

(** A string is falsy exactly when it is empty. *)
Definition truthy (s : string) : bool :=
  match s with
  | EmptyString => false
  | String _ _ => true
  end.

(** [a || b] where [a] is a string or undefined. *)
Definition or_else (a : option string) (b : string) : string :=
  match a with
  | Some s => if truthy s then s else b
  | None => b
  end.

Definition string_of_bool (b : bool) : string :=
  if b then "true" else "false".

(** [x + ""] for a string or undefined. *)
Definition string_of_undef (a : option string) : string :=
  match a with
  | Some s => s
  | None => "undefined"
  end.

(** [Array.prototype.toString]: the elements joined by commas. *)
Definition string_of_array (l : list string) : string :=
  String.concat "," l.

(** The characters that [\s] matches among the 8-bit code units. *)
Definition is_space (c : Ascii.ascii) : bool :=
  let n := Ascii.nat_of_ascii c in
  bool_decide (n = 9 \/ n = 10 \/ n = 11 \/ n = 12 \/ n = 13 \/ n = 32 \/ n = 160).

(** [s.replace(/\s/g, EmptyString)] *)
Fixpoint strip_spaces (s : string) : string :=
  match s with
  | EmptyString => EmptyString
  | String c r => if is_space c then strip_spaces r else String c (strip_spaces r)
  end.

(** ** The monad of synchronous code: state and exceptions *)

Definition M (A : Type) : Type := State -> Res A * State.

Definition ret {A} (a : A) : M A := fun s => (Ok a, s).

Definition bind {A B} (m : M A) (k : A -> M B) : M B :=
  fun s =>
    match m s with
    | (Ok a, s') => k a s'
    | (Throw e, s') => (Throw e, s')
    end.

Definition throw {A} (e : string) : M A := fun s => (Throw e, s).
Definition get : M State := fun s => (Ok s, s).
Definition modify (f : State -> State) : M unit := fun s => (Ok tt, f s).

Declare Scope js_scope.
Delimit Scope js_scope with js.
Notation "x <- m ;; k" := (bind m (fun x => k))
  (at level 20, m at level 99, k at level 200, only parsing) : js_scope.
Notation "m ;; k" := (bind m (fun _ => k))
  (at level 100, k at level 200, only parsing, right associativity) : js_scope.
Local Open Scope js_scope.

(** Assignments to the module's variables and to the process. *)
Definition set_cordovaCache (v : string) (s : State) : State :=
  MkState v (defaultCordovaVersion s) (projectPath s) (cordovaVersion s)
          (loadedCordovaVersion s) (cdv s) (world s) (trace s).
Definition set_projectPath (v : string) (s : State) : State :=
  MkState (cordovaCache s) (defaultCordovaVersion s) v (cordovaVersion s)
          (loadedCordovaVersion s) (cdv s) (world s) (trace s).
Definition set_cordovaVersion (v : option string) (s : State) : State :=
  MkState (cordovaCache s) (defaultCordovaVersion s) (projectPath s) v
          (loadedCordovaVersion s) (cdv s) (world s) (trace s).
Definition set_loadedCordovaVersion (v : option string) (s : State) : State :=
  MkState (cordovaCache s) (defaultCordovaVersion s) (projectPath s) (cordovaVersion s)
          v (cdv s) (world s) (trace s).
Definition set_cdv (v : option Cordova) (s : State) : State :=
  MkState (cordovaCache s) (defaultCordovaVersion s) (projectPath s) (cordovaVersion s)
          (loadedCordovaVersion s) v (world s) (trace s).
Definition set_world (w : World) (s : State) : State :=
  MkState (cordovaCache s) (defaultCordovaVersion s) (projectPath s) (cordovaVersion s)
          (loadedCordovaVersion s) (cdv s) w (trace s).
Definition emit_all (evs : list Event) (s : State) : State :=
  MkState (cordovaCache s) (defaultCordovaVersion s) (projectPath s) (cordovaVersion s)
          (loadedCordovaVersion s) (cdv s) (world s) (trace s ++ evs).
Definition emit (e : Event) (s : State) : State := emit_all [e] s.

Definition set_fs (f : gmap string FsNode) (w : World) : World :=
  MkWorld f (cwd w) (env w).
Definition set_cwd (d : string) (w : World) : World :=
  MkWorld (fs w) d (env w).
Definition set_env (k v : string) (w : World) : World :=
  MkWorld (fs w) (cwd w) (<[k := v]> (env w)).

Definition console_log (msg : string) : M unit := modify (emit (ConsoleLog msg)).
Definition console_warn (msg : string) : M unit := modify (emit (ConsoleWarn msg)).
Definition console_error (msg : string) : M unit := modify (emit (ConsoleError msg)).

(** [fs.existsSync] *)
Definition existsSync (p : string) (w : World) : bool :=
  bool_decide (is_Some (fs w !! p)).

(** [fs.mkdirSync]: creates the directory, or throws and creates nothing. *)
Definition mkdirSync (h : Host) (p : string) : M unit :=
  fun s =>
    match mkdir_error h p (world s) with
    | Some e => (Throw e, s)
    | None => (Ok tt, set_world (set_fs (<[p := Dir]> (fs (world s))) (world s)) s)
    end.

(** [process.chdir] *)
Definition chdir (h : Host) (p : string) : M unit :=
  fun s =>
    match chdir_error h p (world s) with
    | Some e => (Throw e, s)
    | None => (Ok tt, set_world (set_cwd p (world s)) s)
    end.

(** [process.env[k] = v] *)
Definition setenv (k v : string) : M unit :=
  modify (fun s => set_world (set_env k v (world s)) s).

(** [path.join] when an argument may be undefined: Node throws a
    TypeError on an argument that is not a string. *)
Definition join_undef (h : Host) (parts : list (option string)) : M string :=
  match mapM id parts with
  | Some l => ret (path_join h l)
  | None => throw "TypeError: Arguments to path.join must be strings"
  end.

(** [semver.lt(v, bound)] where [v] may be undefined *)
Definition semver_lt_undef (h : Host) (v : option string) (bound : string) : M bool :=
  match v with
  | Some x =>
      match semver_lt h x bound with
      | Some b => ret b
      | None => throw ("TypeError: Invalid Version: " +:+ x)
      end
  | None => throw "TypeError: Invalid Version: undefined"
  end.

(** ** Promises *)

(** [p.then(f)]: [f] runs once [p] is fulfilled; what [f] throws
    rejects the result. *)
Definition then_ {A B} (p : Promise A) (f : A -> M (Promise B)) : M (Promise B) :=
  fun s =>
    match p with
    | Fulfilled a =>
        match f a s with
        | (Ok q, s') => (Ok q, s')
        | (Throw e, s') => (Ok (Rejected e), s')
        end
    | Rejected e => (Ok (Rejected e), s)
    | Pending => (Ok Pending, s)
    end.

(** The event that a settling promise leaves in the trace. *)
Definition settle {A} (p : Promise A) : list Event :=
  match p with
  | Fulfilled _ => [Resolves]
  | Rejected err => [Rejects err]
  | Pending => []
  end.

(** A call into the world: the call is recorded, the world moves on,
    the promise comes back and settles (or never does). *)
Definition call_world {A} (ev : Event) (f : World -> Promise A * World) : M (Promise A) :=
  fun s =>
    let (r, w) := f (world s) in
    (Ok r, emit_all (settle r) (set_world w (emit ev s))).

(** [exec] of line 11: [Q.nfbind(require('child_process').exec)] *)
Definition exec (h : Host) (cmd : string) (opt_cwd : option string)
  : M (Promise (string * string)) :=
  call_world (Exec cmd opt_cwd)
    (fun w => let (r, f) := child_exec h cmd opt_cwd w in (r, set_fs f w)).

(** A promise under construction: the callbacks chained with [then],
    first to run first.  [Q()] is the empty chain and [p.then(f)] adds
    [f] at the end. *)
Definition Task : Type := M (Promise unit).

(** Running a chain: each callback starts when the promise of the one
    before it is fulfilled; a rejection or a promise that never settles
    ends the run. *)
Fixpoint run_chain (ts : list Task) (s : State) : Promise unit * State :=
  match ts with
  | [] => (Fulfilled tt, s)
  | t :: ts' =>
      match t s with
      | (Ok (Fulfilled _), s') => run_chain ts' s'
      | (Ok (Rejected e), s') => (Rejected e, s')
      | (Ok Pending, s') => (Pending, s')
      | (Throw e, s') => (Rejected e, s')
      end
  end.

(** [arr.forEach(f)] for a callback that threads a local variable. *)
Fixpoint forEach {A B} (f : A -> B -> M B) (l : list A) (acc : B) : M B :=
  match l with
  | [] => ret acc
  | x :: l' => acc' <- f x acc ;; forEach f l' acc'
  end.

(** ** The module *)

(** Lines 26-31: the module's variables when it is loaded on
    [process.platform = platform]. *)
Definition initial_state (h : Host) (platform : string) (w : World) : Res State :=
  let home_cache :=
    if bool_decide (platform = "darwin") || bool_decide (platform = "linux")
    then (fun d => path_join h [d; ".cordova-cache"]) <$> (env w !! "HOME")
    else (fun d => path_join h [d; "cordova-cache"]) <$> (env w !! "APPDATA") in
  let cache :=
    match env w !! "CORDOVA_CACHE" with
    | Some c => if truthy c then Some c else home_cache
    | None => home_cache
    end in
  match cache with
  | None => Throw "TypeError: Arguments to path.join must be strings"
  | Some c =>
      Ok (MkState c
                  (or_else (env w !! "CORDOVA_DEFAULT_VERSION") DEFAULT_CORDOVA_VERSION)
                  (cwd w) None None None w [])
  end.

Section TacoTeamBuild.

Variable h : Host.

(** Lines 34-41. *)
Definition configure (obj : Options) : M unit :=
  (match obj_cordovaCache obj with
   | Some c => modify (set_cordovaCache c)
   | None => ret tt
   end) ;;
  (match obj_cordovaVersion obj with
   | Some v => modify (set_cordovaVersion (Some v))
   | None => ret tt
   end) ;;
  (match obj_projectPath obj with
   | Some p => s <- get ;; modify (set_projectPath (path_resolve h (cwd (world s)) p))
   | None => ret tt
   end) ;;
  s <- get ;;
  if negb (existsSync (projectPath s) (world s))
  then throw ("Specified project path does not exist: " +:+ dquote +:+ projectPath s +:+ dquote)
  else ret tt.

(** Lines 238-244. *)
Definition handleExecReturn (result : string * string) : M unit :=
  console_log "Exec complete." ;;
  console_log (fst result) ;;
  if negb (bool_decide (snd result = EmptyString))
  then console_error (snd result)
  else ret tt.

(** Lines 196-218. *)
Definition getCordova : M (Promise Cordova) :=
  s <- get ;;
  if bool_decide (cdv s = None)
     || negb (bool_decide (loadedCordovaVersion s = cordovaVersion s))
  then
    modify (set_loadedCordovaVersion (cordovaVersion s)) ;;
    chdir h (projectPath s) ;;
    setenv "CORDOVA_HOME" (path_join h [cordovaCache s; "_cordova"]) ;;
    setenv "PLUGMAN_HOME" (path_join h [cordovaCache s; "_plugman"]) ;;
    lt <- semver_lt_undef h (cordovaVersion s) "3.7.0" ;;
    dir <- join_undef h [Some (cordovaCache s); cordovaVersion s; Some "node_modules";
                         Some (if lt then CORDOVA else CORDOVA_LIB)] ;;
    s1 <- get ;;
    match require_module h dir (world s1) with
    | Throw e => throw e
    | Ok m =>
        let c := match mod_cordova m with Some c' => c' | None => mod_obj m end in
        modify (set_cdv (Some c)) ;;
        s2 <- get ;;
        if negb (existsSync (path_join h [projectPath s2; "plugins"; SUPPORT_PLUGIN_ID]) (world s2))
        then
          console_log "Adding support plugin." ;;
          p <- call_world (PluginAdd c (SUPPORT_PLUGIN h))
                          (raw_plugin_add h c (SUPPORT_PLUGIN h)) ;;
          then_ p (fun _ => s3 <- get ;;
                            match cdv s3 with
                            | Some c3 => ret (Fulfilled c3)
                            | None => throw "unreachable: cdv is set"
                            end)
        else
          console_log "Support plugin already added." ;;
          ret (Fulfilled c)
    end
  else
    match cdv s with
    | Some c => ret (Fulfilled c)
    | None => throw "unreachable: cdv is set"
    end.

(** The command of lines 81-83.  [+] binds tighter than [? :], so the
    condition of the conditional is the string
    ["npm install " + semver.lt(cordovaVersion, "3.7.0")] and its last
    branch is [CORDOVA_LIB + "@" + cordovaVersion]. *)
Definition install_command (lt : bool) (version : string) : string :=
  if truthy ("npm install " +:+ string_of_bool lt)
  then CORDOVA
  else CORDOVA_LIB +:+ "@" +:+ version.

(** The test of line 51: [cdv && cordovaVersion === loadedCordovaVersion]. *)
Definition already_loaded (s : State) : option Cordova :=
  match cdv s with
  | Some c => if bool_decide (cordovaVersion s = loadedCordovaVersion s) then Some c else None
  | None => None
  end.

(** Lines 55-64: the version, when none is set. *)
Definition resolve_version : M unit :=
  s <- get ;;
  match cordovaVersion s with
  | None =>
      if existsSync (path_join h [projectPath s; "taco.json"]) (world s)
      then
        match require_taco h (path_join h [projectPath s; "taco.json"]) (world s) with
        | Throw e => throw e
        | Ok v =>
            modify (set_cordovaVersion v) ;;
            console_log ("Cordova version set to " +:+ string_of_undef v
                         +:+ " based on the contents of taco.json")
        end
      else
        modify (set_cordovaVersion (Some (defaultCordovaVersion s))) ;;
        console_log ("taco.json not found. Using default Cordova version of "
                     +:+ defaultCordovaVersion s)
  | Some _ => ret tt
  end.

(** Lines 66-89: the cache directory, then the install or the load. *)
Definition install_or_load : M (Promise Cordova) :=
  s <- get ;;
  (if negb (existsSync (cordovaCache s) (world s))
   then mkdirSync h (cordovaCache s) ;;
        console_log ("Creating " +:+ cordovaCache s)
   else ret tt) ;;
  console_log ("Cordova cache found at " +:+ cordovaCache s) ;;
  joined <- join_undef h [Some (cordovaCache s); cordovaVersion s] ;;
  s1 <- get ;;
  let cordovaModulePath := path_resolve h (cwd (world s1)) joined in
  if negb (existsSync cordovaModulePath (world s1))
  then
    mkdirSync h cordovaModulePath ;;
    mkdirSync h (path_join h [cordovaModulePath; "node_modules"]) ;;
    console_log ("Installing Cordova " +:+ string_of_undef (cordovaVersion s) +:+ ".") ;;
    lt <- semver_lt_undef h (cordovaVersion s) "3.7.0" ;;
    p <- exec h (install_command lt (string_of_undef (cordovaVersion s)))
              (Some cordovaModulePath) ;;
    p' <- then_ p (fun result => handleExecReturn result ;; ret (Fulfilled tt)) ;;
    then_ p' (fun _ => getCordova)
  else
    console_log ("Cordova " +:+ string_of_undef (cordovaVersion s) +:+ " already installed.") ;;
    getCordova.

(** Lines 45-90. *)
Definition setupCordova (obj : option Options) : M (Promise Cordova) :=
  (match obj with
   | Some o => configure o
   | None => ret tt
   end) ;;
  s <- get ;;
  match already_loaded s with
  | Some c => ret (Fulfilled c)
  | None => resolve_version ;; install_or_load
  end.

(** Lines 221-235.  A call with more or fewer than one platform falls
    off the end of the function: the result is undefined ([None]). *)
Definition getCallArgs (platforms : Platforms) (args : JsArgs) : option CallArgs :=
  let args :=
    match args with
    | AUndef => AArr []
    | _ => args
    end in
  let platforms :=
    match platforms with
    | PStr p => [p]
    | PArr ps => ps
    end in
  if bool_decide (length platforms = 1)
  then
    match args with
    | AObj per => Some (MkCallArgs platforms (hd_error platforms ≫= (fun p => per !! p)))
    | AArr opts => Some (MkCallArgs platforms (Some opts))
    | AUndef => Some (MkCallArgs platforms None)
    end
  else None.

(** [x + callArgs.options]: an array prints its elements, undefined
    prints as the word. *)
Definition string_of_options (o : option (list string)) : string :=
  match o with
  | Some l => string_of_array l
  | None => "undefined"
  end.

(** Lines 117-123: one turn of the loop. *)
Definition addPlatformsToProject_each (cordova : Cordova) (platform : string)
    (promise : list Task) : M (list Task) :=
  s <- get ;;
  if negb (existsSync (path_join h [projectPath s; "platforms"; platform]) (world s))
  then ret (promise ++ [call_world (PlatformAdd cordova platform)
                                   (raw_platform_add h cordova platform)])
  else console_log ("Platform " +:+ platform +:+ " already added.") ;;
       ret promise.

(** Lines 115-125.  The loop runs at once: the tests of line 118 and the
    notes of line 121 come before any chained callback. *)
Definition addPlatformsToProject (cordova : Cordova) (cordovaPlatforms : list string)
  : M (list Task) :=
  forEach (addPlatformsToProject_each cordova) cordovaPlatforms [].

(** Lines 103-108: the callback chained for one platform. *)
Definition build_task (cordova : Cordova) (args : JsArgs) (platform : string) : Task :=
  match getCallArgs (PStr platform) args with
  | Some callArgs =>
      console_log (or_else (Some ("Queueing build for platform " +:+ platform
                                  +:+ " w/options: " +:+ string_of_options (options callArgs)))
                           "none") ;;
      call_world (BuildCall cordova callArgs) (raw_build h cordova callArgs)
  | None => throw "TypeError: Cannot read property 'options' of undefined"
  end.

(** Lines 94-96 and 129-131. *)
Definition platform_list (cordovaPlatforms : Platforms) : list string :=
  match cordovaPlatforms with
  | PStr p => [p]
  | PArr ps => ps
  end.

(** Lines 99-110: the callback given to [setupCordova().then]. *)
Definition buildProject_then (cordovaPlatforms : list string) (args : JsArgs)
    (cordova : Cordova) : M (Promise unit) :=
  promise <- addPlatformsToProject cordova cordovaPlatforms ;;
  promise <- forEach (fun platform promise =>
                        ret (promise ++ [build_task cordova args platform]))
                     cordovaPlatforms promise ;;
  fun s => let (r, s') := run_chain promise s in (Ok r, s').

(** Lines 93-112. *)
Definition buildProject (cordovaPlatforms : Platforms) (args : JsArgs) : M (Promise unit) :=
  let cordovaPlatforms := platform_list cordovaPlatforms in
  setup <- setupCordova None ;;
  then_ setup (buildProject_then cordovaPlatforms args).

(** Lines 167-168: the command before the extra options. *)
Definition ipa_command (match0 : string) : string :=
  "xcrun -sdk iphoneos PackageApplication " +:+ dquote +:+ match0 +:+ dquote
  +:+ " -o " +:+ dquote
  +:+ path_join h [path_dirname h match0; path_basename h match0 ".app"]
  +:+ ".ipa" +:+ dquote +:+ " ".

(** Lines 160-187: the callback given to [glob], and what becomes of
    [deferred].  An exception in the callback is caught by nobody and
    leaves [deferred] as it was. *)
Definition createIpa_matches (args : JsArgs) (result : string + list string)
  : M (Promise unit) :=
  match result with
  | inl err => ret (Rejected err)
  | inr matches =>
      match matches with
      | [match0] =>
          let cmdString := ipa_command match0 in
          match getCallArgs (PStr "ios") args ≫= options with
          | None =>
              modify (emit (Uncaught "TypeError: Cannot read property 'forEach' of undefined")) ;;
              ret Pending
          | Some opts =>
              let cmdString := foldl (fun cmd arg => cmd +:+ " " +:+ arg) cmdString opts in
              console_log ("Exec: " +:+ cmdString) ;;
              p <- exec h cmdString None ;;
              p' <- then_ p (fun result => handleExecReturn result ;; ret (Fulfilled tt)) ;;
              ret (match p' with
                   | Rejected err => Rejected err
                   | Fulfilled _ => Fulfilled tt
                   | Pending => Pending
                   end)
          end
      | _ =>
          console_warn ("Skipping packaging. Expected one device .app - found "
                        +:+ pretty (length matches)) ;;
          ret Pending
      end
  end.

(** Line 150. *)
Definition iosVersionFilePath (s : State) : string :=
  path_join h [projectPath s; "platforms"; "ios"; "CordovaLib"; "VERSION"].

(** Lines 149-157: the version of the installed iOS platform. *)
Definition ios_platform_version : M string :=
  s <- get ;;
  match fs (world s) !! iosVersionFilePath s with
  | Some (File content) => ret (strip_spaces content)
  | Some Dir => throw "Error: EISDIR: illegal operation on a directory, read"
  | None => ret "4.0.0"
  end.

(** Lines 147-193.  The first parameter is not used. *)
Definition createIpa {A} (cordova : A) (args : JsArgs) : M (Promise unit) :=
  s <- get ;;
  iosPlatformVersion <- ios_platform_version ;;
  lt <- semver_lt_undef h (Some iosPlatformVersion) "3.9.0" ;;
  if lt
  then
    createIpa_matches args
      (glob h (projectPath s +:+ "/platforms/ios/build/device/*.app") (world s))
  else
    console_log "Skipping packaging. Detected cordova-ios verison that auto-creates ipa." ;;
    ret (Fulfilled tt).

(** Lines 136-140: one turn of the loop.  [createIpa(args)] binds
    [args] to the first parameter of [createIpa]; the second one is
    undefined. *)
Definition packageProject_each (args : JsArgs) (platform : string)
    (promise : list Task) : M (list Task) :=
  if bool_decide (platform = "ios")
  then ret (promise ++ [createIpa args AUndef])
  else console_log ("Platform " +:+ platform
                    +:+ " does not require a separate package step.") ;;
       ret promise.

(** Lines 134-142: the callback given to [setupCordova().then]. *)
Definition packageProject_then (cordovaPlatforms : list string) (args : JsArgs)
    (cordova : Cordova) : M (Promise unit) :=
  promise <- forEach (packageProject_each args) cordovaPlatforms [] ;;
  fun s => let (r, s') := run_chain promise s in (Ok r, s').

(** Lines 128-144. *)
Definition packageProject (cordovaPlatforms : Platforms) (args : JsArgs) : M (Promise unit) :=
  let cordovaPlatforms := platform_list cordovaPlatforms in
  setup <- setupCordova None ;;
  then_ setup (packageProject_then cordovaPlatforms args).

End TacoTeamBuild.

(** ** A host to run the module on

    Plain POSIX paths without [.] or [..] segments, versions of the
    form [major.minor.patch], a Cordova module that accepts every call.
    The host is used to evaluate the module on concrete inputs. *)
Module Demo.

Fixpoint split_on (c : Ascii.ascii) (s : string) : list string :=
  match s with
  | EmptyString => [EmptyString]
  | String a r =>
      if bool_decide (a = c) then EmptyString :: split_on c r
      else match split_on c r with
           | x :: xs => String a x :: xs
           | [] => [String a EmptyString]
           end
  end.

Definition slash : Ascii.ascii := Ascii.ascii_of_nat 47.
Definition dot : Ascii.ascii := Ascii.ascii_of_nat 46.

Definition join (parts : list string) : string := String.concat "/" parts.

Definition resolve (cwd p : string) : string :=
  match p with
  | String a _ => if bool_decide (a = slash) then p else cwd +:+ "/" +:+ p
  | EmptyString => cwd
  end.

Definition dirname (p : string) : string :=
  match reverse (split_on slash p) with
  | _ :: (_ :: _) as rest => String.concat "/" (reverse rest)
  | _ => "."
  end.

Fixpoint drop_prefix (p s : list Ascii.ascii) : option (list Ascii.ascii) :=
  match p, s with
  | [], _ => Some s
  | a :: p', b :: s' => if bool_decide (a = b) then drop_prefix p' s' else None
  | _ :: _, [] => None
  end.

Definition basename (p ext : string) : string :=
  let b := default EmptyString (last (split_on slash p)) in
  match drop_prefix (reverse (String.list_ascii_of_string ext))
                    (reverse (String.list_ascii_of_string b)) with
  | Some r => String.string_of_list_ascii (reverse r)
  | None => b
  end.

Definition digit (a : Ascii.ascii) : option nat :=
  let n := Ascii.nat_of_ascii a in
  if bool_decide (48 <= n <= 57) then Some (n - 48) else None.

Fixpoint number_from (acc : nat) (s : string) : option nat :=
  match s with
  | EmptyString => Some acc
  | String a r => d ← digit a; number_from (10 * acc + d) r
  end.

Definition number (s : string) : option nat :=
  match s with
  | EmptyString => None
  | _ => number_from 0 s
  end.

Definition parse_version (s : string) : option (nat * nat * nat) :=
  match split_on dot s with
  | [a; b; c] => x ← number a; y ← number b; z ← number c; Some (x, y, z)
  | _ => None
  end.

Definition version_lt (a b : string) : option bool :=
  '(x1, y1, z1) ← parse_version a;
  '(x2, y2, z2) ← parse_version b;
  Some (bool_decide (x1 < x2 \/ (x1 = x2 /\ (y1 < y2 \/ (y1 = y2 /\ z1 < z2))))).

(** [found]: what [glob] finds; [taco]: the [cordova-cli] property of
    the project's taco.json; [ran]: how every command ends. *)
Definition host (found : list string) (taco : option string)
    (ran : Promise (string * string)) : Host :=
  {| path_join := join;
     path_resolve := resolve;
     path_dirname := dirname;
     path_basename := basename;
     semver_lt := version_lt;
     glob := fun _ _ => inr found;
     child_exec := fun _ _ w => (ran, fs w);
     mkdir_error := fun _ _ => None;
     chdir_error := fun _ _ => None;
     require_taco := fun _ _ => Ok taco;
     require_module := fun dir _ => Ok (MkModule (CordovaObj dir) None);
     raw_plugin_add := fun _ _ w => (Fulfilled tt, w);
     raw_platform_add := fun _ p w => (Fulfilled tt, w);
     raw_build := fun _ _ w => (Fulfilled tt, w);
     module_dirname := "/opt/taco-team-build" |}.

(** A project at [/app] with the listed files besides. *)
Definition world_of (files : list (string * FsNode)) (vars : list (string * string)) : World :=
  MkWorld (list_to_map (("/app", Dir) :: files)) "/app"
          (list_to_map (("HOME", "/home/me") :: vars)).

(** Every command ends well and prints nothing; no bundle is found; the
    project's taco.json, if any, has no [cordova-cli] property. *)
Definition plain : Host := host [] None (Fulfilled (EmptyString, EmptyString)).

(** The same, with a taco.json that asks for Cordova 4.3.0. *)
Definition asks_4_3_0 : Host := host [] (Some "4.3.0") (Fulfilled (EmptyString, EmptyString)).

(** The module just loaded on Linux, in the world [w]. *)
Definition start (h : Host) (w : World) : State :=
  match initial_state h "linux" w with
  | Ok s => s
  | Throw _ => MkState EmptyString EmptyString EmptyString None None None w []
  end.

Definition newline : string := String (Ascii.ascii_of_nat 10) EmptyString.

(** A project whose iOS platform is cordova-ios 3.8.0. *)
Definition old_ios : World :=
  world_of [("/app/platforms/ios/CordovaLib/VERSION", File ("3.8.0" +:+ newline))] [].

(** A project with a taco.json, and a default version in the
    environment. *)
Definition with_taco : World :=
  world_of [("/app/taco.json", File "{}")] [("CORDOVA_DEFAULT_VERSION", "4.0.0")].

Definition app : string := "/app/platforms/ios/build/device/My.app".

Definition no_options : Options := MkOptions None None None.
Definition version_option (v : string) : Options := MkOptions None (Some v) None.
Definition path_option (p : string) : Options := MkOptions None None (Some p).

(** A host that finds the one bundle [app]. *)
Definition one_bundle : Host := host [app] None (Fulfilled (EmptyString, EmptyString)).

(** A host whose Cordova module rejects the registration of [bad]. *)
Definition rejecting (bad : string) : Host :=
  {| path_join := path_join plain;
     path_resolve := path_resolve plain;
     path_dirname := path_dirname plain;
     path_basename := path_basename plain;
     semver_lt := semver_lt plain;
     glob := glob plain;
     child_exec := child_exec plain;
     mkdir_error := mkdir_error plain;
     chdir_error := chdir_error plain;
     require_taco := require_taco plain;
     require_module := require_module plain;
     raw_plugin_add := raw_plugin_add plain;
     raw_platform_add := fun _ p w =>
       (if bool_decide (p = bad) then Rejected "Platform not supported" else Fulfilled tt, w);
     raw_build := raw_build plain;
     module_dirname := module_dirname plain |}.

(** A host on which the package of a version cannot be loaded. *)
Definition unloadable : Host :=
  {| path_join := path_join plain;
     path_resolve := path_resolve plain;
     path_dirname := path_dirname plain;
     path_basename := path_basename plain;
     semver_lt := semver_lt plain;
     glob := glob plain;
     child_exec := child_exec plain;
     mkdir_error := mkdir_error plain;
     chdir_error := chdir_error plain;
     require_taco := require_taco plain;
     require_module := fun _ _ => Throw "Error: Cannot find module";
     raw_plugin_add := raw_plugin_add plain;
     raw_platform_add := raw_platform_add plain;
     raw_build := raw_build plain;
     module_dirname := module_dirname plain |}.

(** A host whose Cordova module fails to build [bad]. *)
Definition unbuildable (bad : string) : Host :=
  {| path_join := path_join plain;
     path_resolve := path_resolve plain;
     path_dirname := path_dirname plain;
     path_basename := path_basename plain;
     semver_lt := semver_lt plain;
     glob := glob plain;
     child_exec := child_exec plain;
     mkdir_error := mkdir_error plain;
     chdir_error := chdir_error plain;
     require_taco := require_taco plain;
     require_module := require_module plain;
     raw_plugin_add := raw_plugin_add plain;
     raw_platform_add := raw_platform_add plain;
     raw_build := fun _ callArgs w =>
       (if bool_decide (platforms callArgs = [bad])
        then Rejected "Build failed" else Fulfilled tt, w);
     module_dirname := module_dirname plain |}.

(** A host whose Cordova module rejects the support plugin. *)
Definition no_plugin : Host :=
  {| path_join := path_join plain;
     path_resolve := path_resolve plain;
     path_dirname := path_dirname plain;
     path_basename := path_basename plain;
     semver_lt := semver_lt plain;
     glob := glob plain;
     child_exec := child_exec plain;
     mkdir_error := mkdir_error plain;
     chdir_error := chdir_error plain;
     require_taco := require_taco plain;
     require_module := require_module plain;
     raw_plugin_add := fun _ _ w => (Rejected "Plugin failed", w);
     raw_platform_add := raw_platform_add plain;
     raw_build := raw_build plain;
     module_dirname := module_dirname plain |}.

(** A host on which every command fails. *)
Definition failing : Host := host [] None (Rejected "npm ERR!").

(** A machine whose cache holds Cordova 5.1.1. *)
Definition cached : World :=
  world_of [("/home/me/.cordova-cache", Dir); ("/home/me/.cordova-cache/5.1.1", Dir)] [].

(** A machine with an empty cache. *)
Definition empty_cache : World := world_of [("/home/me/.cordova-cache", Dir)] [].

(** The module once [configure] has set the version [v]. *)
Definition wanting (v : string) (w : World) : State :=
  snd (configure plain (version_option v) (start plain w)).

(** The module once a first setup has loaded Cordova 5.1.1. *)
Definition loaded_5_1_1 : State := snd (setupCordova plain None (start plain (world_of [] []))).

(** A project in which the iOS platform is registered already. *)
Definition ios_added : World := world_of [("/app/platforms/ios", Dir)] [].

(** The module [require]d from the cache for version 5.1.1. *)
Definition lib_5_1_1 : Cordova :=
  CordovaObj "/home/me/.cordova-cache/5.1.1/node_modules/cordova-lib".

End Demo.

(** ** Reading a trace *)

(** The commands run through [exec], with their working directory. *)
Definition execs (t : list Event) : list (string * option string) :=
  omap (fun e => match e with Exec cmd d => Some (cmd, d) | _ => None end) t.

(** The calls into the Cordova module for platforms and builds, and the
    settling of their promises. *)
Definition is_step (e : Event) : bool :=
  match e with
  | PlatformAdd _ _ | BuildCall _ _ | Resolves | Rejects _ => true
  | _ => false
  end.

Definition steps (t : list Event) : list Event := List.filter is_step t.

(** The path that [configure] checks: the one given, made absolute, or
    the one the module already has. *)
Definition effective_projectPath (h : Host) (obj : Options) (s : State) : string :=
  match obj_projectPath obj with
  | Some p => path_resolve h (cwd (world s)) p
  | None => projectPath s
  end.

Definition missing_path_error (p : string) : string :=
  "Specified project path does not exist: " +:+ dquote +:+ p +:+ dquote.

(** The pattern handed to [glob] on line 160. *)
Definition app_pattern (s : State) : string :=
  projectPath s +:+ "/platforms/ios/build/device/*.app".

(** ** Vocabulary of the statements *)

(** The options that [getCallArgs] finds for one platform. *)
Definition options_for (platform : string) (args : JsArgs) : option (list string) :=
  match args with
  | AUndef => Some []
  | AArr opts => Some opts
  | AObj per => per !! platform
  end.

Definition queueing_note (platform : string) (o : option (list string)) : string :=
  "Queueing build for platform " +:+ platform +:+ " w/options: " +:+ string_of_options o.

Definition auto_ipa_note : string :=
  "Skipping packaging. Detected cordova-ios verison that auto-creates ipa.".

Definition skip_note (found : nat) : string :=
  "Skipping packaging. Expected one device .app - found " +:+ pretty found.

(** [keeps f m]: running [m] does not change the reading [f] of the
    state, whether [m] returns or throws. *)
Definition keeps {A B} (f : State -> B) (m : M A) : Prop :=
  forall s, f (snd (m s)) = f s.

(** The commands run so far. *)
Definition commands (s : State) : list (string * option string) := execs (trace s).

(** [installs m]: [m] runs no command, or the single command [cordova]
    in some directory. *)
Definition installs {A} (m : M A) : Prop :=
  forall s, commands (snd (m s)) = commands s
            \/ exists dir, commands (snd (m s)) = commands s ++ [(CORDOVA, Some dir)].

(** [ensures m Q]: whenever [m] returns, [Q] holds of what it returns
    and of the state it leaves. *)
Definition ensures {A} (m : M A) (Q : A -> State -> Prop) : Prop :=
  forall s a s', m s = (Ok a, s') -> Q a s'.

(** A fulfilled setup hands out the loaded module, and the module is
    the one for the version wanted: the test of line 51 passes. *)
Definition ready (r : Promise Cordova) (s : State) : Prop :=
  forall c, r = Fulfilled c -> already_loaded s = Some c.

(** [wp m Q s]: if [m] returns from [s], [Q] holds of the outcome. *)
Definition wp {A} (m : M A) (Q : A -> State -> Prop) (s : State) : Prop :=
  match m s with
  | (Ok a, s') => Q a s'
  | (Throw _, _) => True
  end.

(** The three variables that the test of line 51 reads. *)
Definition core (s : State) : option Cordova * option string * option string :=
  (cdv s, loadedCordovaVersion s, cordovaVersion s).

(** The inputs of version resolution, in the words of the
    specification: the version set through [configure], the version
    found in the project's taco.json, the environment's default. *)
Definition spec_resolveVersion (configured project_file env_default : option string) : string :=
  match configured, project_file, env_default with
  | Some v, _, _ => v
  | None, Some v, _ => v
  | None, None, Some v => v
  | None, None, None => "5.1.1"
  end.

(** The version string that the project's taco.json holds, if there is
    such a file and it has one. *)
Definition taco_version_found (h : Host) (s : State) : option string :=
  if existsSync (path_join h [projectPath s; "taco.json"]) (world s)
  then match require_taco h (path_join h [projectPath s; "taco.json"]) (world s) with
       | Ok (Some v) => Some v
       | _ => None
       end
  else None.

(** The second call asks for no other version than the one in use. *)
Definition same_version (obj : option Options) (s : State) : Prop :=
  match obj ≫= obj_cordovaVersion with
  | Some v => cordovaVersion s = Some v
  | None => True
  end.

(** [Schedule plan seen r]: [seen] is what a run of the calls of [plan],
    one after the other, leaves in the trace when the run ends with the
    promise [r].  Each call is followed by the settling of its promise;
    the next call comes only after a [Resolves]; a [Rejects], or a
    promise that never settles, is the end of the run. *)
Inductive Schedule : list Event -> list Event -> Promise unit -> Prop :=
| Schedule_done :
    Schedule [] [] (Fulfilled tt)
| Schedule_next call plan seen r :
    Schedule plan seen r ->
    Schedule (call :: plan) (call :: Resolves :: seen) r
| Schedule_rejected call plan err :
    Schedule (call :: plan) [call; Rejects err] (Rejected err)
| Schedule_pending call plan :
    Schedule (call :: plan) [call] Pending.

(** The calls of a trace, without the settling events. *)
Definition calls (t : list Event) : list Event :=
  List.filter (fun e => match e with Resolves | Rejects _ => false | _ => true end) t.

(** The test of line 118. *)
Definition unregistered (h : Host) (s : State) (platform : string) : bool :=
  negb (existsSync (path_join h [projectPath s; "platforms"; platform]) (world s)).

(** The calls that [buildProject] is to make, in order: a registration
    for each platform without a directory under [platforms] when the
    loop of [addPlatformsToProject] runs, then a build for every
    platform of the list. *)
Definition build_plan (h : Host) (cordova : Cordova) (cordovaPlatforms : list string)
    (args : JsArgs) (s : State) : list Event :=
  (PlatformAdd cordova <$> List.filter (unregistered h s) cordovaPlatforms)
  ++ ((fun p => BuildCall cordova (MkCallArgs [p] (options_for p args))) <$> cordovaPlatforms).

Definition add_task (h : Host) (cordova : Cordova) (platform : string) : Task :=
  call_world (PlatformAdd cordova platform) (raw_platform_add h cordova platform).

(** A callback that makes the one call [ev] and returns its promise. *)
Definition makes_call (t : Task) (ev : Event) : Prop :=
  forall s, exists r evs,
    fst (t s) = Ok r
    /\ trace (snd (t s)) = trace s ++ evs
    /\ steps evs = ev :: settle r.

(** What the Cordova module answers to one call of a plan made in the
    world [w]: the promise of [cordova.raw.platform] (line 119) or of
    [cordova.raw.build] (line 106), and the world the call leaves. *)
Definition call_outcome (h : Host) (call : Event) (w : World) : Promise unit * World :=
  match call with
  | PlatformAdd cordova platform => raw_platform_add h cordova platform w
  | BuildCall cordova callArgs => raw_build h cordova callArgs w
  | _ => (Fulfilled tt, w)
  end.

(** The end of a run of calls: the promise it ends with, the world it
    leaves, the calls made and the settling of their promises. *)
Record PlanRun : Type := MkPlanRun {
  plan_result : Promise unit;
  plan_world : World;
  plan_seen : list Event
}.

(** The calls of [plan] made against the Cordova module, one after the
    other from the world [w]: each call is made in the world that the
    call before it left, and only once the promise of that call was
    fulfilled; the first promise that is rejected or never settles ends
    the run and is its result. *)
Fixpoint run_plan (h : Host) (plan : list Event) (w : World) : PlanRun :=
  match plan with
  | [] => MkPlanRun (Fulfilled tt) w []
  | call :: plan =>
      match call_outcome h call w with
      | (Fulfilled _, w') =>
          let rest := run_plan h plan w' in
          MkPlanRun (plan_result rest) (plan_world rest) (call :: Resolves :: plan_seen rest)
      | (Rejected err, w') => MkPlanRun (Rejected err) w' [call; Rejects err]
      | (Pending, w') => MkPlanRun Pending w' [call]
      end
  end.

(** Every call of [plan], made in the world that the calls before it
    left, is answered by the Cordova module with a fulfilled promise. *)
Fixpoint all_resolve (h : Host) (plan : list Event) (w : World) : Prop :=
  match plan with
  | [] => True
  | call :: plan =>
      exists w', call_outcome h call w = (Fulfilled tt, w') /\ all_resolve h plan w'
  end.

(** A callback that makes the call [call] into the Cordova module in the
    world it is run in, returns the very promise of that call and leaves
    the world that the call leaves. *)
Definition performs (h : Host) (t : Task) (call : Event) : Prop :=
  forall s, exists evs,
    fst (t s) = Ok (fst (call_outcome h call (world s)))
    /\ world (snd (t s)) = snd (call_outcome h call (world s))
    /\ trace (snd (t s)) = trace s ++ evs
    /\ steps evs = call :: settle (fst (call_outcome h call (world s))).

(** The notes of line 121, for the platforms that are registered. *)
Definition already_added_notes (h : Host) (s : State) (cordovaPlatforms : list string)
  : list Event :=
  (fun p => ConsoleLog ("Platform " +:+ p +:+ " already added."))
    <$> List.filter (fun p => negb (unregistered h s p)) cordovaPlatforms.

Definition is_ios (platform : string) : bool := bool_decide (platform = "ios").

(** The notes of line 139, for the platforms other than iOS. *)
Definition no_package_notes (cordovaPlatforms : list string) : list Event :=
  (fun p => ConsoleLog ("Platform " +:+ p +:+ " does not require a separate package step."))
    <$> List.filter (fun p => negb (is_ios p)) cordovaPlatforms.

(** [runs_only P m]: the commands that [m] runs all satisfy [P]. *)
Definition runs_only (P : string * option string -> Prop) {A} (m : M A) : Prop :=
  forall s, exists cmds, commands (snd (m s)) = commands s ++ cmds /\ Forall P cmds.

(** The packaging command for some bundle, with no option added. *)
Definition bare (h : Host) (cmd : string * option string) : Prop :=
  exists m, cmd = (ipa_command h m, None).

(** The module that a loaded package stands for: its [cordova]
    property when it has one (lines 204-206). *)
Definition unwrap (m : Module) : Cordova :=
  match mod_cordova m with
  | Some c => c
  | None => mod_obj m
  end.

(** The process as [getCordova] leaves it before it loads the package
    (lines 200-202). *)
Definition load_world (h : Host) (s : State) : World :=
  set_env "PLUGMAN_HOME" (path_join h [cordovaCache s; "_plugman"])
    (set_env "CORDOVA_HOME" (path_join h [cordovaCache s; "_cordova"])
       (set_cwd (projectPath s) (world s))).

(** The directory that [getCordova] loads the package from (line 203). *)
Definition package_dir (h : Host) (s : State) (version : string) (lt : bool) : string :=
  path_join h [cordovaCache s; version; "node_modules"; if lt then CORDOVA else CORDOVA_LIB].

(** The directory of the support plugin in the project (line 208). *)
Definition plugin_dir (h : Host) (s : State) : string :=
  path_join h [projectPath s; "plugins"; SUPPORT_PLUGIN_ID].

(** The directory of a version in the cache (line 75). *)
Definition module_path (h : Host) (s : State) (version : string) : string :=
  path_resolve h (cwd (world s)) (path_join h [cordovaCache s; version]).

(** The files once the directory of a version and its [node_modules]
    are made (lines 77-78). *)
Definition install_world (h : Host) (s : State) (version : string) : World :=
  set_fs (<[path_join h [module_path h s version; "node_modules"] := Dir]>
            (<[module_path h s version := Dir]> (fs (world s))))
         (world s).

(** The command line that [createIpa] builds from the options it is
    given (lines 167-174). *)
Definition ipa_command_with (h : Host) (match0 : string) (opts : list string) : string :=
  foldl (fun cmd arg => cmd +:+ " " +:+ arg) (ipa_command h match0) opts.

(** What becomes of [deferred] once the command has ended (lines
    177-184). *)
Definition deferred_of {A} (p : Promise A) : Promise unit :=
  match p with
  | Fulfilled _ => Fulfilled tt
  | Rejected err => Rejected err
  | Pending => Pending
  end.

(** [wpx m Q s]: if [m] throws from [s], [Q] holds of the state it
    leaves. *)
Definition wpx {A} (m : M A) (Q : State -> Prop) (s : State) : Prop :=
  match m s with
  | (Throw _, s') => Q s'
  | (Ok _, _) => True
  end.

(** ** configure *)

Section Configure.

Variable h : Host.

Lemma configure_eq (obj : Options) (s : State) :
  configure h obj s =
  let s1 := match obj_cordovaCache obj with Some c => set_cordovaCache c s | None => s end in
  let s2 := match obj_cordovaVersion obj with
            | Some v => set_cordovaVersion (Some v) s1
            | None => s1
            end in
  let s3 := set_projectPath (effective_projectPath h obj s) s2 in
  let s3' := match obj_projectPath obj with Some _ => s3 | None => s2 end in
  if existsSync (effective_projectPath h obj s) (world s)
  then (Ok tt, s3')
  else (Throw (missing_path_error (effective_projectPath h obj s)), s3').
Proof.
  unfold configure, effective_projectPath, missing_path_error, bind, get, modify, ret, throw.
  destruct obj as [oc ov op]; simpl.
  destruct oc, ov, op; simpl; destruct (existsSync _ _); reflexivity.
Qed.

Lemma configure_projectPath (obj : Options) (s : State) :
  projectPath (snd (configure h obj s)) = effective_projectPath h obj s.
Proof.
  rewrite configure_eq. cbv zeta. unfold effective_projectPath.
  destruct obj as [oc ov op]; simpl.
  destruct oc, ov, op, (existsSync _ _); reflexivity.
Qed.

(** C9. Every call to [configure] checks the effective project path:
    the supplied [projectPath] made absolute by [path.resolve], or, when
    none is supplied, the path the module already holds.  The call
    throws exactly when that path does not exist, whatever the other
    options are, and the module's [projectPath] is that path afterwards. *)
Theorem configure_validates_effective_path (obj : Options) (s : State) :
  fst (configure h obj s) =
    (if existsSync (effective_projectPath h obj s) (world s)
     then Ok tt
     else Throw (missing_path_error (effective_projectPath h obj s)))
  /\ projectPath (snd (configure h obj s)) = effective_projectPath h obj s
  /\ effective_projectPath h obj s =
       match obj_projectPath obj with
       | Some p => path_resolve h (cwd (world s)) p
       | None => projectPath s
       end.
Proof.
  split; [|split].
  - rewrite configure_eq. cbv zeta. destruct (existsSync _ _); reflexivity.
  - apply configure_projectPath.
  - reflexivity.
Qed.

(** C7. When the [projectPath] option names a path that does not exist,
    [configure] throws before it returns, and so does [setupCordova]
    called with these options: no promise is made, nothing is added to
    the trace (no command, no call into Cordova), and the process is as
    it was. *)
Theorem configure_missing_projectPath_throws (obj : Options) (s : State) (p : string) :
  obj_projectPath obj = Some p ->
  existsSync (path_resolve h (cwd (world s)) p) (world s) = false ->
  let msg := missing_path_error (path_resolve h (cwd (world s)) p) in
  fst (configure h obj s) = Throw msg
  /\ trace (snd (configure h obj s)) = trace s
  /\ world (snd (configure h obj s)) = world s
  /\ fst (setupCordova h (Some obj) s) = Throw msg
  /\ trace (snd (setupCordova h (Some obj) s)) = trace s
  /\ world (snd (setupCordova h (Some obj) s)) = world s
  /\ cdv (snd (setupCordova h (Some obj) s)) = cdv s.
Proof.
  intros Hp Hmiss msg.
  assert (Heff : effective_projectPath h obj s = path_resolve h (cwd (world s)) p)
    by (unfold effective_projectPath; rewrite Hp; reflexivity).
  assert (Hc : exists s', configure h obj s = (Throw msg, s')
                          /\ trace s' = trace s /\ world s' = world s /\ cdv s' = cdv s).
  { rewrite configure_eq. cbv zeta. rewrite Heff, Hmiss, Hp.
    eexists; split; [reflexivity|].
    destruct obj as [oc ov op]; simpl. destruct oc, ov; simpl; auto. }
  destruct Hc as (s' & Hc & Ht & Hw & Hv).
  unfold setupCordova, bind. rewrite Hc. simpl. auto 10.
Qed.

End Configure.

(** ** Traces of the primitive steps *)

Lemma call_world_eq {A} (ev : Event) (f : World -> Promise A * World) (s : State) :
  call_world ev f s =
  (Ok (fst (f (world s))),
   emit_all (settle (fst (f (world s)))) (set_world (snd (f (world s))) (emit ev s))).
Proof. unfold call_world. by destruct (f (world s)). Qed.

Lemma call_world_trace {A} (ev : Event) (f : World -> Promise A * World) (s : State) :
  trace (snd (call_world ev f s)) = trace s ++ ev :: settle (fst (f (world s))).
Proof.
  rewrite call_world_eq. simpl. by rewrite <- app_assoc.
Qed.

Lemma execs_app (t1 t2 : list Event) : execs (t1 ++ t2) = execs t1 ++ execs t2.
Proof. apply omap_app. Qed.

Lemma execs_settle {A} (p : Promise A) : execs (settle p) = [].
Proof. by destruct p. Qed.

Lemma steps_app (t1 t2 : list Event) : steps (t1 ++ t2) = steps t1 ++ steps t2.
Proof. apply List.filter_app. Qed.

Lemma steps_settle {A} (p : Promise A) : steps (settle p) = settle p.
Proof. by destruct p. Qed.

(** ** getCallArgs and the build callback *)

Section CallArgs.

Variable h : Host.

Lemma getCallArgs_single (platform : string) (args : JsArgs) :
  getCallArgs (PStr platform) args = Some (MkCallArgs [platform] (options_for platform args)).
Proof. by destruct args. Qed.

Lemma getCallArgs_eq (ps : Platforms) (args : JsArgs) :
  getCallArgs ps args =
  match platform_list ps with
  | [p] => Some (MkCallArgs [p] (options_for p args))
  | _ => None
  end.
Proof.
  destruct ps as [p|[|p [|q l]]], args; reflexivity.
Qed.

Lemma build_task_trace (cordova : Cordova) (args : JsArgs) (platform : string) (s : State) :
  let callArgs := MkCallArgs [platform] (options_for platform args) in
  fst (build_task h cordova args platform s) = Ok (fst (raw_build h cordova callArgs (world s)))
  /\ trace (snd (build_task h cordova args platform s)) =
       trace s ++ [ConsoleLog (queueing_note platform (options_for platform args));
                   BuildCall cordova callArgs]
               ++ settle (fst (raw_build h cordova callArgs (world s))).
Proof.
  unfold build_task. rewrite getCallArgs_single. cbv zeta.
  unfold bind, console_log, modify. cbn [options].
  rewrite call_world_eq. cbn [fst snd].
  split; [reflexivity|].
  cbn. rewrite <- !app_assoc. reflexivity.
Qed.

(** C10. For a single platform [p] and an [args] object with no entry
    for [p], [getCallArgs] gives an [options] field that is undefined,
    not an empty list, and the build callback passes exactly this bundle
    to [cordova.raw.build]; for a platform list whose length is not 1,
    [getCallArgs] returns undefined. *)
Theorem getCallArgs_missing_entry_is_undefined
    (cordova : Cordova) (p : string) (per : gmap string (list string))
    (ps : Platforms) (args : JsArgs) (s : State) :
  per !! p = None ->
  length (platform_list ps) <> 1 ->
  getCallArgs (PStr p) (AObj per) = Some (MkCallArgs [p] None)
  /\ getCallArgs (PArr [p]) (AObj per) = Some (MkCallArgs [p] None)
  /\ trace (snd (build_task h cordova (AObj per) p s)) =
       trace s ++ [ConsoleLog (queueing_note p None); BuildCall cordova (MkCallArgs [p] None)]
               ++ settle (fst (raw_build h cordova (MkCallArgs [p] None) (world s)))
  /\ getCallArgs ps args = None.
Proof.
  intros Hper Hlen.
  split; [|split; [|split]].
  - rewrite getCallArgs_single. simpl. by rewrite Hper.
  - rewrite getCallArgs_eq. simpl. by rewrite Hper.
  - pose proof (build_task_trace cordova (AObj per) p s) as [_ Ht].
    simpl in Ht. rewrite Hper in Ht. exact Ht.
  - rewrite getCallArgs_eq.
    destruct (platform_list ps) as [|q [|q' l]]; simpl in *; congruence.
Qed.

End CallArgs.

(** ** createIpa and the package callback *)

Section CreateIpa.

Variable h : Host.

Lemma ios_platform_version_state (s : State) :
  snd (ios_platform_version h s) = s.
Proof.
  unfold ios_platform_version, bind, get, ret, throw.
  by destruct (fs (world s) !! iosVersionFilePath h s) as [[|content]|].
Qed.

Lemma ios_platform_version_absent (s : State) :
  fs (world s) !! iosVersionFilePath h s = None ->
  ios_platform_version h s = (Ok "4.0.0", s).
Proof.
  intros Hnone. unfold ios_platform_version, bind, get, ret. by rewrite Hnone.
Qed.

(** [createIpa] once the version is known and [semver.lt] has answered. *)
Lemma createIpa_eq {A} (cordova : A) (args : JsArgs) (s : State) (v : string) (lt : bool) :
  fst (ios_platform_version h s) = Ok v ->
  semver_lt h v "3.9.0" = Some lt ->
  createIpa h cordova args s =
  if lt then createIpa_matches h args (glob h (app_pattern s) (world s)) s
  else (Ok (Fulfilled tt), emit (ConsoleLog auto_ipa_note) s).
Proof.
  intros Hv Hlt.
  pose proof (ios_platform_version_state s) as Hs.
  unfold createIpa, bind, get.
  destruct (ios_platform_version h s) as [[v'|e] s']; simpl in *; [|discriminate].
  injection Hv as ->. subst s'.
  rewrite Hlt. unfold ret. by destruct lt.
Qed.

(** C8. When the VERSION file of the iOS platform is absent the version
    is taken to be 4.0.0; and whenever the version found or assumed is
    not below 3.9.0, [createIpa] returns a fulfilled promise at once,
    having written one note and run no command. *)
Theorem createIpa_noop_from_3_9_0 {A} (cordova : A) (args : JsArgs) (s : State) (v : string) :
  fst (ios_platform_version h s) = Ok v ->
  semver_lt h v "3.9.0" = Some false ->
  (fs (world s) !! iosVersionFilePath h s = None -> v = "4.0.0")
  /\ createIpa h cordova args s = (Ok (Fulfilled tt), emit (ConsoleLog auto_ipa_note) s)
  /\ commands (snd (createIpa h cordova args s)) = commands s.
Proof.
  intros Hv Hlt.
  split; [|split].
  - intros Hnone. rewrite (ios_platform_version_absent s Hnone) in Hv.
    simpl in Hv. congruence.
  - by rewrite (createIpa_eq cordova args s v false Hv Hlt).
  - rewrite (createIpa_eq cordova args s v false Hv Hlt). unfold commands. simpl.
    rewrite execs_app. simpl. by rewrite app_nil_r.
Qed.

Lemma createIpa_matches_skip (args : JsArgs) (matches : list string) (s : State) :
  length matches <> 1 ->
  createIpa_matches h args (inr matches) s =
  (Ok Pending, emit (ConsoleWarn (skip_note (length matches))) s).
Proof.
  intros Hlen. unfold createIpa_matches.
  destruct matches as [|m [|m' l]]; simpl in *; try congruence; reflexivity.
Qed.

(** [createIpa] as the package callback calls it: the second parameter
    is undefined, so no option is added to the command. *)
Lemma createIpa_matches_single (m : string) (s : State) :
  exists r, fst (createIpa_matches h AUndef (inr [m]) s) = Ok r
  /\ commands (snd (createIpa_matches h AUndef (inr [m]) s))
     = commands s ++ [(ipa_command h m, None)].
Proof.
  unfold createIpa_matches, commands. simpl.
  unfold bind, console_log, modify, exec. rewrite call_world_eq. cbn [fst snd].
  set (out := child_exec h (ipa_command h m) None (world (emit _ s))).
  destruct out as [r f] eqn:Hout. cbn [fst snd].
  set (s1 := emit_all _ _).
  assert (Hs1 : execs (trace s1) = execs (trace s) ++ [(ipa_command h m, None)]).
  { unfold s1. simpl.
    rewrite !execs_app, execs_settle. simpl. by rewrite !app_nil_r. }
  clearbody s1.
  destruct r as [|[out1 err1]|e]; simpl.
  - eexists; split; [reflexivity|exact Hs1].
  - unfold handleExecReturn, bind, console_log, console_error, modify, ret. simpl.
    destruct (bool_decide (err1 = "")); simpl;
      (eexists; split; [reflexivity|]); simpl;
      rewrite !execs_app; simpl; rewrite !app_nil_r; exact Hs1.
  - eexists; split; [reflexivity|exact Hs1].
Qed.

End CreateIpa.

(** ** What a computation leaves unchanged *)

Section Keeps.

Context {B : Type} (f : State -> B).

Lemma keeps_ret {A} (a : A) : keeps f (ret a).
Proof. by intros s. Qed.

Lemma keeps_throw {A} (e : string) : keeps f (@throw A e).
Proof. by intros s. Qed.

Lemma keeps_get : keeps f get.
Proof. by intros s. Qed.

Lemma keeps_modify (g : State -> State) :
  (forall s, f (g s) = f s) -> keeps f (modify g).
Proof. intros Hg s. apply Hg. Qed.

Lemma keeps_bind {A C} (m : M A) (k : A -> M C) :
  keeps f m -> (forall a, keeps f (k a)) -> keeps f (bind m k).
Proof.
  intros Hm Hk s. unfold bind.
  specialize (Hm s). destruct (m s) as [[a|e] s1]; simpl in *.
  - by rewrite Hk.
  - done.
Qed.

Lemma keeps_then_ {A C} (p : Promise A) (k : A -> M (Promise C)) :
  (forall a, keeps f (k a)) -> keeps f (then_ p k).
Proof.
  intros Hk s. unfold then_. destruct p as [|a|e]; try done.
  specialize (Hk a s). by destruct (k a s) as [[q|e] s1].
Qed.

(** The readings used below ignore the process around the module. *)
Hypothesis f_world : forall w s, f (set_world w s) = f s.

Lemma keeps_mkdirSync (h : Host) (p : string) : keeps f (mkdirSync h p).
Proof.
  intros s. unfold mkdirSync.
  destruct (mkdir_error h p (world s)); simpl; [done|apply f_world].
Qed.

Lemma keeps_chdir (h : Host) (p : string) : keeps f (chdir h p).
Proof.
  intros s. unfold chdir.
  destruct (chdir_error h p (world s)); simpl; [done|apply f_world].
Qed.

Lemma keeps_setenv (k v : string) : keeps f (setenv k v).
Proof. intros s. apply f_world. Qed.

Lemma keeps_call_world {A} (ev : Event) (g : World -> Promise A * World) :
  (forall evs s, execs evs = [] -> f (emit_all evs s) = f s) ->
  execs [ev] = [] ->
  keeps f (call_world ev g).
Proof.
  intros Hemit Hev s. rewrite call_world_eq. simpl.
  rewrite Hemit by apply execs_settle.
  rewrite f_world. by apply Hemit.
Qed.

End Keeps.

Lemma commands_world (w : World) (s : State) : commands (set_world w s) = commands s.
Proof. done. Qed.

Lemma commands_emit_all (evs : list Event) (s : State) :
  execs evs = [] -> commands (emit_all evs s) = commands s.
Proof.
  intros Hevs. unfold commands. simpl. by rewrite execs_app, Hevs, app_nil_r.
Qed.

Lemma cordovaVersion_world (w : World) (s : State) :
  cordovaVersion (set_world w s) = cordovaVersion s.
Proof. done. Qed.

(** Steps through a computation, one construct at a time; what is left
    are the side conditions on the assignments. *)
Ltac keeps_step :=
  lazymatch goal with
  | |- keeps _ (bind _ _) => apply keeps_bind; [|intros]
  | |- keeps _ (ret _) => apply keeps_ret
  | |- keeps _ (throw _) => apply keeps_throw
  | |- keeps _ get => apply keeps_get
  | |- keeps _ (modify _) => apply keeps_modify; intros
  | |- keeps _ (then_ _ _) => apply keeps_then_; intros
  | |- keeps _ (mkdirSync _ _) => apply keeps_mkdirSync; intros
  | |- keeps _ (chdir _ _) => apply keeps_chdir; intros
  | |- keeps _ (setenv _ _) => apply keeps_setenv; intros
  | |- keeps _ (call_world _ _) => apply keeps_call_world; intros
  | |- keeps _ (match ?x with _ => _ end) => destruct x
  | |- keeps _ (let _ := _ in _) => cbv zeta
  end.

Ltac keeps_side :=
  first [ done
        | by apply commands_emit_all
        | by (unfold commands; simpl; rewrite execs_app; simpl; rewrite app_nil_r) ].

Create HintDb keeps.

Ltac keeps_all :=
  unfold console_log, console_warn, console_error, join_undef, semver_lt_undef;
  repeat keeps_step; try keeps_side; eauto with keeps.

Section SetupFrames.

Variable h : Host.

Lemma handleExecReturn_commands (result : string * string) :
  keeps commands (handleExecReturn result).
Proof. unfold handleExecReturn. keeps_all. Qed.

Lemma getCordova_commands : keeps commands (getCordova h).
Proof. unfold getCordova. keeps_all. Qed.

Lemma configure_commands (obj : Options) : keeps commands (configure h obj).
Proof. unfold configure. keeps_all. Qed.

Lemma resolve_version_commands : keeps commands (resolve_version h).
Proof. unfold resolve_version. keeps_all. Qed.

Lemma getCordova_cordovaVersion : keeps cordovaVersion (getCordova h).
Proof. unfold getCordova. keeps_all. Qed.

Lemma exec_cordovaVersion (cmd : string) (d : option string) :
  keeps cordovaVersion (exec h cmd d).
Proof. intros s. unfold exec. by rewrite call_world_eq. Qed.

Hint Resolve getCordova_cordovaVersion exec_cordovaVersion : keeps.

Lemma install_or_load_cordovaVersion : keeps cordovaVersion (install_or_load h).
Proof. unfold install_or_load, handleExecReturn. keeps_all. Qed.

End SetupFrames.

Lemma bind_keeps_tail {A C B} (f : State -> B) (m : M A) (k : A -> M C) (s : State) :
  (forall a, keeps f (k a)) -> f (snd (bind m k s)) = f (snd (m s)).
Proof.
  intros Hk. unfold bind. destruct (m s) as [[a|e] s1]; [apply Hk|done].
Qed.

(** ** The install command *)

Lemma install_command_cordova (lt : bool) (version : string) :
  install_command lt version = CORDOVA.
Proof. by destruct lt. Qed.

Section Installs.

Variable h : Host.

Lemma installs_keeps {A} (m : M A) : keeps commands m -> installs m.
Proof. intros Hm s. left. apply Hm. Qed.

Lemma installs_bind_l {A C} (m : M A) (k : A -> M C) :
  keeps commands m -> (forall a, installs (k a)) -> installs (bind m k).
Proof.
  intros Hm Hk s. unfold bind.
  specialize (Hm s). destruct (m s) as [[a|e] s1]; simpl in *.
  - rewrite <- Hm. apply Hk.
  - left. exact Hm.
Qed.

Lemma installs_bind_r {A C} (m : M A) (k : A -> M C) :
  installs m -> (forall a, keeps commands (k a)) -> installs (bind m k).
Proof.
  intros Hm Hk s. unfold bind.
  specialize (Hm s). destruct (m s) as [[a|e] s1]; simpl in *.
  - rewrite !(Hk a s1). exact Hm.
  - exact Hm.
Qed.

Lemma exec_commands (cmd : string) (d : option string) (s : State) :
  commands (snd (exec h cmd d s)) = commands s ++ [(cmd, d)].
Proof.
  unfold exec, commands. rewrite call_world_trace.
  rewrite execs_app. simpl. by rewrite execs_settle.
Qed.

Lemma installs_exec (lt : bool) (version dir : string) :
  installs (exec h (install_command lt version) (Some dir)).
Proof.
  intros s. right. exists dir.
  by rewrite exec_commands, install_command_cordova.
Qed.

Ltac installs_step :=
  first [ assumption
        | apply installs_exec
        | apply installs_bind_l; [solve [keeps_all]|intros]
        | apply installs_bind_r; [|intros; solve [keeps_all]]
        | apply installs_keeps; solve [keeps_all]
        | match goal with
          | |- installs (match ?x with _ => _ end) => destruct x
          | |- installs (let _ := _ in _) => cbv zeta
          end ].

Lemma install_or_load_installs : installs (install_or_load h).
Proof.
  pose proof (getCordova_commands h).
  pose proof (handleExecReturn_commands).
  unfold install_or_load. repeat installs_step.
Qed.

(** The other cache hit: when the cache and the directory of the
    version are there, nothing is installed. *)
Lemma install_or_load_cache_hit (s : State) (v : string) :
  cordovaVersion s = Some v ->
  existsSync (cordovaCache s) (world s) = true ->
  existsSync (path_resolve h (cwd (world s)) (path_join h [cordovaCache s; v])) (world s)
    = true ->
  commands (snd (install_or_load h s)) = commands s.
Proof.
  intros Hv Hcache Hdir.
  unfold install_or_load, bind at 1, get at 1. rewrite Hcache. simpl.
  unfold bind at 1, ret at 1. unfold bind at 1, console_log at 1, modify at 1.
  unfold bind at 1, join_undef. rewrite Hv. simpl.
  unfold bind at 1, get at 1. simpl. rewrite Hdir. simpl.
  rewrite (bind_keeps_tail commands) by (intros; apply getCordova_commands).
  unfold commands. simpl. rewrite !execs_app. simpl. by rewrite !app_nil_r.
Qed.

Lemma setupCordova_installs (obj : option Options) : installs (setupCordova h obj).
Proof.
  pose proof install_or_load_installs.
  pose proof (resolve_version_commands h).
  pose proof (configure_commands h).
  unfold setupCordova. repeat installs_step.
Qed.

End Installs.

(** ** What a successful setup leaves behind *)

Lemma ensures_bind {A C} (m : M A) (k : A -> M C) (Q : C -> State -> Prop) :
  (forall a, ensures (k a) Q) -> ensures (bind m k) Q.
Proof.
  intros Hk s c s' Hrun. unfold bind in Hrun.
  destruct (m s) as [[a|e] s1]; [|discriminate].
  by eapply Hk.
Qed.

Lemma ensures_throw {A} (e : string) (Q : A -> State -> Prop) : ensures (throw e) Q.
Proof. by intros s a s' Hrun. Qed.

Lemma ensures_then_ready {A} (p : Promise A) (k : A -> M (Promise Cordova)) :
  (forall a, ensures (k a) ready) -> ensures (then_ p k) ready.
Proof.
  intros Hk s r s' Hrun. unfold then_ in Hrun.
  destruct p as [|a|e]; simplify_eq; try by intros c.
  specialize (Hk a s). destruct (k a s) as [[q|e] s1]; simplify_eq.
  - by eapply Hk.
  - by intros c.
Qed.

Lemma ensures_wp {A} (m : M A) (Q : A -> State -> Prop) :
  (forall s, wp m Q s) -> ensures m Q.
Proof. intros Hwp s a s' Hrun. specialize (Hwp s). unfold wp in Hwp. by rewrite Hrun in Hwp. Qed.

Lemma wp_ensures {A} (m : M A) (Q : A -> State -> Prop) (s : State) :
  ensures m Q -> wp m Q s.
Proof. intros Hm. unfold wp. destruct (m s) as [[a|e] s'] eqn:Hrun; [by eapply Hm|done]. Qed.

Lemma wp_bind {A C} (m : M A) (k : A -> M C) (Q : C -> State -> Prop) (s : State) :
  wp m (fun a s1 => wp (k a) Q s1) s -> wp (bind m k) Q s.
Proof. unfold wp, bind. by destruct (m s) as [[a|e] s1]. Qed.

Lemma wp_ret {A} (a : A) (Q : A -> State -> Prop) (s : State) : Q a s -> wp (ret a) Q s.
Proof. done. Qed.

Lemma wp_throw {A} (e : string) (Q : A -> State -> Prop) (s : State) : wp (throw e) Q s.
Proof. done. Qed.

Lemma wp_get (Q : State -> State -> Prop) (s : State) : Q s s -> wp get Q s.
Proof. done. Qed.

Lemma wp_modify (g : State -> State) (Q : unit -> State -> Prop) (s : State) :
  Q tt (g s) -> wp (modify g) Q s.
Proof. done. Qed.

Lemma wp_keeps {A B} (f : State -> B) (m : M A) (Q : A -> State -> Prop) (s : State) :
  keeps f m -> (forall a s1, f s1 = f s -> Q a s1) -> wp m Q s.
Proof.
  intros Hm HQ. unfold wp. specialize (Hm s).
  destruct (m s) as [[a|e] s1]; [by apply HQ|done].
Qed.

Lemma wp_then_ready {A} (p : Promise A) (k : A -> M (Promise Cordova)) (s : State) :
  (forall a, wp (k a) ready s) -> wp (then_ p k) ready s.
Proof.
  intros Hk. unfold wp, then_. destruct p as [|a|e]; try by intros c.
  specialize (Hk a). unfold wp in Hk.
  destruct (k a s) as [[q|e] s1]; [done|by intros c].
Qed.

Lemma ready_core (c : Cordova) (s : State) :
  cdv s = Some c -> loadedCordovaVersion s = cordovaVersion s -> ready (Fulfilled c) s.
Proof.
  intros Hc Hv c' [= <-]. unfold already_loaded. rewrite Hc.
  by rewrite bool_decide_true.
Qed.

Ltac wp_frame :=
  apply wp_bind; apply (wp_keeps core); [solve [keeps_all]|intros ? ? ?].

Section Ready.

Variable h : Host.

Lemma getCordova_ready : ensures (getCordova h) ready.
Proof.
  apply ensures_wp. intros s. unfold getCordova.
  apply wp_bind, wp_get.
  destruct (bool_decide (cdv s = None) || _) eqn:Hcond.
  - apply wp_bind, wp_modify.
    do 5 wp_frame.
    apply wp_bind, wp_get.
    destruct (require_module h _ _) as [m|e]; [|apply wp_throw].
    cbv zeta. apply wp_bind, wp_modify. apply wp_bind, wp_get.
    assert (Hv : loadedCordovaVersion s1 = cordovaVersion s1).
    { unfold core in *. simplify_eq/=. congruence. }
    destruct (negb (existsSync _ _)).
    + wp_frame.
      apply wp_bind. apply (wp_keeps core); [unfold SUPPORT_PLUGIN; keeps_all|].
      intros p sp Hsp. apply wp_then_ready. intros _.
      apply wp_bind, wp_get.
      unfold core in *. simplify_eq/=.
      destruct (cdv sp) as [c3|] eqn:Hc3; [|apply wp_throw].
      apply wp_ret, ready_core; congruence.
    + wp_frame. apply wp_ret.
      unfold core in *. simplify_eq/=.
      apply ready_core; congruence.
  - apply orb_false_iff in Hcond as [Hc Hv].
    apply negb_false_iff, bool_decide_eq_true in Hv.
    destruct (cdv s) as [c|] eqn:Hcdv; [|apply wp_throw].
    by apply wp_ret, ready_core.
Qed.

Lemma install_or_load_ready : ensures (install_or_load h) ready.
Proof.
  unfold install_or_load.
  repeat first [ apply getCordova_ready
               | apply ensures_bind; intros
               | apply ensures_then_ready; intros
               | apply ensures_throw
               | match goal with
                 | |- ensures (match ?x with _ => _ end) _ => destruct x
                 | |- ensures (let _ := _ in _) _ => cbv zeta
                 end ].
Qed.

Lemma setupCordova_ready (obj : option Options) : ensures (setupCordova h obj) ready.
Proof.
  unfold setupCordova. apply ensures_bind. intros _.
  apply ensures_wp. intros s. apply wp_bind, wp_get.
  destruct (already_loaded s) as [c|] eqn:Hload.
  - apply wp_ret. by intros c' [= <-].
  - apply wp_ensures, ensures_bind. intros _. apply install_or_load_ready.
Qed.

End Ready.

(** ** Setup *)

Section Setup.

Variable h : Host.

Lemma initial_state_fields (platform : string) (w : World) (s0 : State) :
  initial_state h platform w = Ok s0 ->
  cdv s0 = None /\ cordovaVersion s0 = None /\ world s0 = w /\ projectPath s0 = cwd w
  /\ defaultCordovaVersion s0 =
       or_else (env w !! "CORDOVA_DEFAULT_VERSION") DEFAULT_CORDOVA_VERSION.
Proof.
  unfold initial_state. intros Hinit.
  repeat case_match; simplify_eq; done.
Qed.

Lemma configure_fields (obj : Options) (s : State) :
  cdv (snd (configure h obj s)) = cdv s
  /\ loadedCordovaVersion (snd (configure h obj s)) = loadedCordovaVersion s
  /\ trace (snd (configure h obj s)) = trace s
  /\ world (snd (configure h obj s)) = world s
  /\ cordovaVersion (snd (configure h obj s)) =
       match obj_cordovaVersion obj with
       | Some v => Some v
       | None => cordovaVersion s
       end.
Proof.
  rewrite configure_eq. cbv zeta.
  destruct obj as [oc ov op]; simpl.
  destruct (existsSync _ _), oc, ov, op; simpl; auto.
Qed.

Lemma resolve_version_cordovaVersion (s : State) :
  cordovaVersion (snd (resolve_version h s)) =
  match cordovaVersion s with
  | Some v => Some v
  | None =>
      if existsSync (path_join h [projectPath s; "taco.json"]) (world s)
      then match require_taco h (path_join h [projectPath s; "taco.json"]) (world s) with
           | Ok v => v
           | Throw _ => None
           end
      else Some (defaultCordovaVersion s)
  end.
Proof.
  unfold resolve_version, bind, get, modify, ret, throw, console_log.
  destruct (cordovaVersion s) eqn:Hv; simpl; [done|].
  destruct (existsSync _ _); simpl; [|done].
  destruct (require_taco h _ _); simpl; done.
Qed.

(** Where the version comes from.  On a freshly loaded module,
    [setupCordova] with options that [configure] accepts takes the
    version of the options when they give one; without one and without
    a taco.json file at the project root, it takes the
    CORDOVA_DEFAULT_VERSION variable when that is set to a non-empty
    string, and 5.1.1 otherwise.  With a taco.json file it takes what
    line 58 reads from it, whatever that is: lines 57-63 have no way
    back to the default. *)
Lemma version_resolution_order (platform : string) (w : World) (s0 : State) (obj : Options) :
  initial_state h platform w = Ok s0 ->
  fst (configure h obj s0) = Ok tt ->
  cordovaVersion (snd (setupCordova h (Some obj) s0)) =
    match obj_cordovaVersion obj with
    | Some v => Some v
    | None =>
        let taco := path_join h [effective_projectPath h obj s0; "taco.json"] in
        if existsSync taco w
        then match require_taco h taco w with
             | Ok v => v
             | Throw _ => None
             end
        else Some match env w !! "CORDOVA_DEFAULT_VERSION" with
                  | Some v => if truthy v then v else "5.1.1"
                  | None => "5.1.1"
                  end
    end.
Proof.
  intros Hinit Hconf.
  destruct (initial_state_fields platform w s0 Hinit) as (Hcdv & Hver & Hw & Hpp & Hdef).
  pose proof (configure_projectPath h obj s0) as Hpath.
  unfold setupCordova. unfold bind at 1.
  destruct (configure h obj s0) as [[[]|e] s1] eqn:Hc; simpl in Hconf; [|discriminate].
  simpl in Hpath.
  assert (Hs1 : cdv s1 = None /\ world s1 = w
                /\ defaultCordovaVersion s1 = defaultCordovaVersion s0
                /\ cordovaVersion s1 = obj_cordovaVersion obj).
  { rewrite configure_eq in Hc. cbv zeta in Hc.
    destruct (existsSync _ _); simplify_eq.
    destruct obj as [oc ov op]; simpl.
    destruct oc, ov, op; simpl; rewrite ?Hver; auto. }
  destruct Hs1 as (Hcdv1 & Hw1 & Hdef1 & Hver1).
  unfold bind at 1. simpl.
  unfold already_loaded. rewrite Hcdv1.
  rewrite (bind_keeps_tail cordovaVersion) by (intros; apply install_or_load_cordovaVersion).
  rewrite resolve_version_cordovaVersion, Hver1, Hpath, Hw1, Hdef1, Hdef.
  destruct (obj_cordovaVersion obj); [done|].
  cbv zeta. destruct (existsSync _ _); [done|].
  unfold or_else, DEFAULT_CORDOVA_VERSION. by destruct (env w !! _).
Qed.

(** C6. After a setup that was fulfilled, a second setup that asks for
    the same version (or for none) is a pure cache hit: it adds nothing
    to the trace (no command, no call into Cordova) and leaves the
    process alone; it hands out the same module, unless [configure]
    rejects its options.  So the two calls together run at most one
    command. *)
Theorem setupCordova_twice_installs_once (o1 o2 : option Options) (s s1 : State) (c : Cordova) :
  setupCordova h o1 s = (Ok (Fulfilled c), s1) ->
  same_version o2 s1 ->
  trace (snd (setupCordova h o2 s1)) = trace s1
  /\ world (snd (setupCordova h o2 s1)) = world s1
  /\ (fst (setupCordova h o2 s1) = Ok (Fulfilled c)
      \/ exists e, fst (setupCordova h o2 s1) = Throw e)
  /\ length (commands (snd (setupCordova h o2 s1))) <= S (length (commands s)).
Proof.
  intros Hfirst Hsame.
  pose proof (setupCordova_ready h o1 s _ s1 Hfirst c eq_refl) as Hload.
  assert (Hlen : length (commands s1) <= S (length (commands s))).
  { destruct (setupCordova_installs h o1 s) as [Hq|[dir Hq]];
      rewrite Hfirst in Hq; simpl in Hq; rewrite Hq; [lia|].
    rewrite length_app. simpl. lia. }
  assert (Hsecond : exists r s2, setupCordova h o2 s1 = (r, s2)
            /\ trace s2 = trace s1 /\ world s2 = world s1
            /\ (r = Ok (Fulfilled c) \/ exists e, r = Throw e)).
  { unfold setupCordova. destruct o2 as [obj|].
    - unfold bind at 1.
      destruct (configure_fields obj s1) as (Hc & Hl & Ht & Hw & Hv).
      assert (Hl2 : already_loaded (snd (configure h obj s1)) = Some c).
      { unfold already_loaded in *. rewrite Hc, Hl, Hv.
        unfold same_version in Hsame. simpl in Hsame.
        destruct (obj_cordovaVersion obj); [by rewrite <- Hsame|done]. }
      destruct (configure h obj s1) as [[[]|e] s2]; simpl in *.
      + unfold bind, get. rewrite Hl2.
        eexists _, _; split; [reflexivity|]. auto.
      + eexists _, _; split; [reflexivity|]. eauto.
    - unfold bind, ret, get. rewrite Hload.
      eexists _, _; split; [reflexivity|]. auto. }
  destruct Hsecond as (r & s2 & Hrun & Ht & Hw & Hr).
  rewrite Hrun. simpl. unfold commands. rewrite Ht.
  repeat split; auto.
Qed.

End Setup.

(** ** The build sequence *)

Lemma Schedule_calls (plan seen : list Event) (r : Promise unit) :
  Forall (fun e => match e with Resolves | Rejects _ => False | _ => True end) plan ->
  Schedule plan seen r ->
  exists n, calls seen = take n plan
            /\ n <= length plan
            /\ (r = Fulfilled tt
                <-> n = length plan /\ seen = flat_map (fun e => [e; Resolves]) plan).
Proof.
  intros Hplan Hrun. induction Hrun as [|call plan seen r Hrun IH|call plan err|call plan].
  - exists 0. by repeat split.
  - inversion Hplan as [|? ? Hcall Hrest]; subst.
    destruct (IH Hrest) as (n & Hn & Hle & Hiff).
    exists (S n). simpl. destruct call; try done; simpl; rewrite Hn;
      (split; [done|]); (split; [lia|]);
      rewrite Hiff; (split; [intros [-> ->]; done|intros [[= ->] [= ->]]; done]).
  - inversion Hplan as [|? ? Hcall Hrest]; subst.
    exists 1. simpl. destruct call; try done; simpl; rewrite take_0;
      (split; [done|]); (split; [lia|]); (split; [done|intros [_ [=]]]).
  - inversion Hplan as [|? ? Hcall Hrest]; subst.
    exists 1. simpl. destruct call; try done; simpl; rewrite take_0;
      (split; [done|]); (split; [lia|]); (split; [done|intros [_ [=]]]).
Qed.

Section Build.

Variable h : Host.

Lemma emit_all_nil (s : State) : emit_all [] s = s.
Proof. destruct s. unfold emit_all. simpl. by rewrite app_nil_r. Qed.

Lemma emit_all_emit_all (a b : list Event) (s : State) :
  emit_all b (emit_all a s) = emit_all (a ++ b) s.
Proof. unfold emit_all. simpl. by rewrite app_assoc. Qed.

Lemma add_task_call (cordova : Cordova) (platform : string) :
  makes_call (add_task h cordova platform) (PlatformAdd cordova platform).
Proof.
  intros s. unfold add_task. rewrite call_world_eq. simpl.
  eexists _, _; split; [reflexivity|]. rewrite <- app_assoc.
  split; [reflexivity|]. simpl. by rewrite steps_settle.
Qed.

Lemma build_task_call (cordova : Cordova) (args : JsArgs) (platform : string) :
  makes_call (build_task h cordova args platform)
             (BuildCall cordova (MkCallArgs [platform] (options_for platform args))).
Proof.
  intros s. destruct (build_task_trace h cordova args platform s) as [Hr Ht].
  eexists _, _; split; [exact Hr|]. split; [exact Ht|].
  rewrite steps_app, steps_settle. reflexivity.
Qed.

Lemma addPlatformsToProject_each_eq (cordova : Cordova) (p : string)
    (promise : list Task) (s : State) :
  addPlatformsToProject_each h cordova p promise s =
  if unregistered h s p
  then (Ok (promise ++ [add_task h cordova p]), s)
  else (Ok promise, emit (ConsoleLog ("Platform " +:+ p +:+ " already added.")) s).
Proof.
  unfold addPlatformsToProject_each, unregistered, bind, get.
  by destruct (negb (existsSync _ _)).
Qed.

(** The loop of [addPlatformsToProject]: it chains a registration for
    each platform that is not in the project, and writes a note for each
    one that is; nothing else changes. *)
Lemma addPlatformsToProject_loop (cordova : Cordova) (ps : list string)
    (promise : list Task) (s : State) :
  forEach (addPlatformsToProject_each h cordova) ps promise s
  = (Ok (promise ++ (add_task h cordova <$> List.filter (unregistered h s) ps)),
     emit_all (already_added_notes h s ps) s).
Proof.
  revert promise s. induction ps as [|p ps IH]; intros promise s; simpl.
  - by rewrite app_nil_r, emit_all_nil.
  - unfold bind at 1. rewrite addPlatformsToProject_each_eq.
    unfold already_added_notes. simpl.
    destruct (unregistered h s p) eqn:Hreg; simpl.
    + rewrite IH. by rewrite <- app_assoc.
    + rewrite IH. unfold emit. rewrite emit_all_emit_all. reflexivity.
Qed.

Lemma build_loop (cordova : Cordova) (args : JsArgs) (ps : list string)
    (promise : list Task) (s : State) :
  forEach (fun platform promise => ret (promise ++ [build_task h cordova args platform]))
          ps promise s
  = (Ok (promise ++ (build_task h cordova args <$> ps)), s).
Proof.
  revert promise. induction ps as [|p ps IH]; intros promise; simpl.
  - by rewrite app_nil_r.
  - unfold bind, ret at 1. rewrite IH. by rewrite <- app_assoc.
Qed.

(** A chain of callbacks that make one call each runs as the schedule
    of these calls. *)
Lemma run_chain_schedule (ts : list Task) (plan : list Event) :
  Forall2 makes_call ts plan ->
  forall s, exists run,
    trace (snd (run_chain ts s)) = trace s ++ run
    /\ Schedule plan (steps run) (fst (run_chain ts s)).
Proof.
  induction 1 as [|t ev ts plan Ht Hts IH]; intros s; simpl.
  - exists []. split; [by rewrite app_nil_r|constructor].
  - destruct (Ht s) as (r & evs & Hr & Htrace & Hsteps).
    destruct (t s) as [res s0]. simpl in Hr, Htrace. subst res.
    destruct r as [|[]|err]; simpl in *.
    + exists evs. split; [exact Htrace|]. rewrite Hsteps. constructor.
    + destruct (IH s0) as (run & Hrun & Hsched).
      exists (evs ++ run). split.
      * rewrite Hrun, Htrace. by rewrite <- app_assoc.
      * rewrite steps_app, Hsteps. simpl. by constructor.
    + exists evs. split; [exact Htrace|]. rewrite Hsteps. constructor.
Qed.

Lemma build_plan_calls (cordova : Cordova) (ps : list string) (args : JsArgs) (s : State) :
  Forall2 makes_call
    ((add_task h cordova <$> List.filter (unregistered h s) ps)
     ++ (build_task h cordova args <$> ps))
    (build_plan h cordova ps args s).
Proof.
  unfold build_plan. apply Forall2_app.
  - apply Forall2_fmap, Forall_Forall2_diag, Forall_forall.
    intros p _. apply add_task_call.
  - apply Forall2_fmap, Forall_Forall2_diag, Forall_forall.
    intros p _. apply build_task_call.
Qed.

Lemma buildProject_then_schedule (ps : list string) (args : JsArgs) (cordova : Cordova)
    (s : State) :
  exists r s' run,
    buildProject_then h ps args cordova s = (Ok r, s')
    /\ trace s' = trace s ++ already_added_notes h s ps ++ run
    /\ Schedule (build_plan h cordova ps args s) (steps run) r.
Proof.
  unfold buildProject_then, addPlatformsToProject.
  unfold bind at 1. rewrite addPlatformsToProject_loop. simpl.
  unfold bind at 1. rewrite build_loop.
  pose proof (build_plan_calls cordova ps args s) as Hplan.
  destruct (run_chain_schedule _ _ Hplan (emit_all (already_added_notes h s ps) s))
    as (run & Hrun & Hsched).
  destruct (run_chain _ _) as [r s2]. simpl in *.
  exists r, s2, run. rewrite Hrun, <- app_assoc. auto.
Qed.

Lemma add_task_performs (cordova : Cordova) (platform : string) :
  performs h (add_task h cordova platform) (PlatformAdd cordova platform).
Proof.
  intros s. unfold add_task. rewrite call_world_eq. simpl.
  eexists. split; [reflexivity|]. split; [reflexivity|].
  rewrite <- app_assoc. split; [reflexivity|]. simpl. by rewrite steps_settle.
Qed.

Lemma build_task_performs (cordova : Cordova) (args : JsArgs) (platform : string) :
  performs h (build_task h cordova args platform)
             (BuildCall cordova (MkCallArgs [platform] (options_for platform args))).
Proof.
  intros s. unfold build_task. rewrite getCallArgs_single. cbv zeta.
  unfold bind, console_log, modify. cbn [options].
  rewrite call_world_eq. cbn [fst snd call_outcome].
  eexists. split; [reflexivity|]. split; [reflexivity|].
  split; [cbn; rewrite <- !app_assoc; reflexivity|].
  unfold steps. simpl. f_equal. apply steps_settle.
Qed.

(** A chain of callbacks that perform one call each ends as the run of
    these calls against the Cordova module does. *)
Lemma run_chain_run_plan (ts : list Task) (plan : list Event) :
  Forall2 (performs h) ts plan ->
  forall s, exists run,
    fst (run_chain ts s) = plan_result (run_plan h plan (world s))
    /\ world (snd (run_chain ts s)) = plan_world (run_plan h plan (world s))
    /\ trace (snd (run_chain ts s)) = trace s ++ run
    /\ steps run = plan_seen (run_plan h plan (world s)).
Proof.
  induction 1 as [|t call ts plan Ht Hts IH]; intros s; simpl.
  - exists []. by rewrite app_nil_r.
  - destruct (Ht s) as (evs & Hr & Hw & Htrace & Hsteps).
    destruct (call_outcome h call (world s)) as [r w'].
    destruct (t s) as [res s0]. simpl in Hr, Hw, Htrace, Hsteps. subst res w'.
    destruct r as [|[]|err]; simpl in *.
    + exists evs. by rewrite Htrace, Hsteps.
    + destruct (IH s0) as (run & Hrun & Hworld & Hgrow & Hseen).
      exists (evs ++ run). rewrite Hrun, Hworld, Hgrow, Htrace, steps_app, Hsteps, Hseen.
      by rewrite <- app_assoc.
    + exists evs. by rewrite Htrace, Hsteps.
Qed.

Lemma build_plan_performs (cordova : Cordova) (ps : list string) (args : JsArgs) (s : State) :
  Forall2 (performs h)
    ((add_task h cordova <$> List.filter (unregistered h s) ps)
     ++ (build_task h cordova args <$> ps))
    (build_plan h cordova ps args s).
Proof.
  unfold build_plan. apply Forall2_app.
  - apply Forall2_fmap, Forall_Forall2_diag, Forall_forall.
    intros p _. apply add_task_performs.
  - apply Forall2_fmap, Forall_Forall2_diag, Forall_forall.
    intros p _. apply build_task_performs.
Qed.

(** The callback of [buildProject] ends as the run of its plan against
    the Cordova module does, from the world it starts in. *)
Lemma buildProject_then_run_plan (ps : list string) (args : JsArgs) (cordova : Cordova)
    (s : State) :
  exists s' run,
    buildProject_then h ps args cordova s
    = (Ok (plan_result (run_plan h (build_plan h cordova ps args s) (world s))), s')
    /\ world s' = plan_world (run_plan h (build_plan h cordova ps args s) (world s))
    /\ trace s' = trace s ++ already_added_notes h s ps ++ run
    /\ steps run = plan_seen (run_plan h (build_plan h cordova ps args s) (world s)).
Proof.
  unfold buildProject_then, addPlatformsToProject.
  unfold bind at 1. rewrite addPlatformsToProject_loop. simpl.
  unfold bind at 1. rewrite build_loop.
  pose proof (build_plan_performs cordova ps args s) as Hplan.
  destruct (run_chain_run_plan _ _ Hplan (emit_all (already_added_notes h s ps) s))
    as (run & Hr & Hw & Htrace & Hseen).
  destruct (run_chain _ _) as [r s2]. simpl in *.
  exists s2, run. rewrite Hr, Hw, Htrace, Hseen, <- app_assoc. auto.
Qed.

Lemma run_plan_schedule (plan : list Event) (w : World) :
  Schedule plan (plan_seen (run_plan h plan w)) (plan_result (run_plan h plan w)).
Proof.
  revert w. induction plan as [|call plan IH]; intros w; simpl; [constructor|].
  destruct (call_outcome h call w) as [[|[]|err] w']; simpl; constructor. apply IH.
Qed.

Lemma run_plan_all_resolve (plan : list Event) (w : World) :
  plan_result (run_plan h plan w) = Fulfilled tt <-> all_resolve h plan w.
Proof.
  revert w. induction plan as [|call plan IH]; intros w; simpl; [done|].
  destruct (call_outcome h call w) as [[|[]|err] w']; simpl.
  - split; [done|]. by intros (w2 & [=] & _).
  - rewrite IH. split.
    + intros Hrest. by exists w'.
    + by intros (w2 & [= <-] & Hrest).
  - split; [done|]. by intros (w2 & [=] & _).
Qed.

Lemma buildProject_eq (cordovaPlatforms : Platforms) (args : JsArgs) (s : State) :
  buildProject h cordovaPlatforms args s =
  match setupCordova h None s with
  | (Ok setup, s1) => then_ setup (buildProject_then h (platform_list cordovaPlatforms) args) s1
  | (Throw err, s1) => (Throw err, s1)
  end.
Proof. reflexivity. Qed.

(** C5. [buildProject] first sets Cordova up; if that throws, is
    rejected or never settles, nothing else happens.  Otherwise the
    loop of [addPlatformsToProject] writes its notes for the platforms
    that are registered already, and then the calls into Cordova are
    the run of the plan against the Cordova module: the registrations
    ([cordova.raw.platform]) of the platforms that are not yet in the
    project, in the order of the list, then one build
    ([cordova.raw.build]) per platform, in the order of the list.  Each
    call is made in the world that the call before it left, and only
    once the promise that Cordova returned for that call was fulfilled,
    so the registration of a platform (or the note that skips it) is
    over before its build is called.  The first call whose promise
    Cordova rejects (or never settles) is the last call made, and that
    promise is the result of [buildProject]; the result is fulfilled
    only when every promise was.  The world afterwards is the one that
    the last call made left. *)
Theorem buildProject_steps_in_order (cordovaPlatforms : Platforms) (args : JsArgs) (s : State) :
  match setupCordova h None s with
  | (Ok (Fulfilled cordova), s1) =>
      let plan := build_plan h cordova (platform_list cordovaPlatforms) args s1 in
      exists s2 run,
        buildProject h cordovaPlatforms args s
        = (Ok (plan_result (run_plan h plan (world s1))), s2)
        /\ world s2 = plan_world (run_plan h plan (world s1))
        /\ trace s2 = trace s1 ++ already_added_notes h s1 (platform_list cordovaPlatforms) ++ run
        /\ steps run = plan_seen (run_plan h plan (world s1))
        /\ Schedule plan (steps run) (plan_result (run_plan h plan (world s1)))
  | (Ok (Rejected err), s1) =>
      buildProject h cordovaPlatforms args s = (Ok (Rejected err), s1)
  | (Ok Pending, s1) =>
      buildProject h cordovaPlatforms args s = (Ok Pending, s1)
  | (Throw err, s1) =>
      buildProject h cordovaPlatforms args s = (Throw err, s1)
  end.
Proof.
  rewrite buildProject_eq.
  destruct (setupCordova h None s) as [[[|cordova|err]|err] s1]; try reflexivity.
  unfold then_. cbv zeta.
  destruct (buildProject_then_run_plan (platform_list cordovaPlatforms) args cordova s1)
    as (s2 & run & Hrun & Hworld & Htrace & Hseen).
  exists s2, run. rewrite Hrun, Hseen.
  repeat split; try assumption. apply run_plan_schedule.
Qed.

End Build.

(** ** The package sequence *)

Section Package.

Variable h : Host.

Lemma execs_no_package_notes (ps : list string) : execs (no_package_notes ps) = [].
Proof.
  unfold no_package_notes. induction ps as [|p ps IH]; simpl; [done|].
  by destruct (negb (is_ios p)).
Qed.

Lemma ios_platform_version_emit_all (notes : list Event) (s : State) :
  fst (ios_platform_version h (emit_all notes s)) = fst (ios_platform_version h s).
Proof.
  unfold ios_platform_version, bind, get, ret, throw. simpl.
  change (iosVersionFilePath h (emit_all notes s)) with (iosVersionFilePath h s).
  by destruct (fs (world s) !! iosVersionFilePath h s) as [[|content]|].
Qed.

Lemma packageProject_each_eq (args : JsArgs) (p : string) (promise : list Task) (s : State) :
  packageProject_each h args p promise s =
  if is_ios p
  then (Ok (promise ++ [createIpa h args AUndef]), s)
  else (Ok promise,
        emit (ConsoleLog ("Platform " +:+ p +:+ " does not require a separate package step."))
             s).
Proof.
  unfold packageProject_each, is_ios. by destruct (bool_decide (p = "ios")).
Qed.

(** The loop of [packageProject]: it chains one [createIpa(args)] for
    each [ios] of the list and writes a note for each other platform. *)
Lemma packageProject_loop (args : JsArgs) (ps : list string) (promise : list Task) (s : State) :
  forEach (packageProject_each h args) ps promise s
  = (Ok (promise ++ ((fun _ => createIpa h args AUndef) <$> List.filter is_ios ps)),
     emit_all (no_package_notes ps) s).
Proof.
  revert promise s. induction ps as [|p ps IH]; intros promise s; simpl.
  - by rewrite app_nil_r, emit_all_nil.
  - unfold bind at 1. rewrite packageProject_each_eq.
    unfold no_package_notes. simpl.
    destruct (is_ios p); simpl.
    + rewrite IH. by rewrite <- app_assoc.
    + rewrite IH. unfold emit. by rewrite emit_all_emit_all.
Qed.

Lemma filter_is_ios_cons (ps : list string) :
  In "ios" ps -> exists l, List.filter is_ios ps = "ios" :: l.
Proof.
  intros Hin.
  assert (Hf : In "ios" (List.filter is_ios ps)) by (apply filter_In; by split).
  destruct (List.filter is_ios ps) as [|p l] eqn:Hfilter; [done|].
  assert (Hp : In p (List.filter is_ios ps)) by (rewrite Hfilter; by left).
  apply filter_In in Hp as [_ Hp]. unfold is_ios in Hp.
  apply bool_decide_eq_true in Hp as ->. by exists l.
Qed.

Lemma runs_only_keeps {A} (P : string * option string -> Prop) (m : M A) :
  keeps commands m -> runs_only P m.
Proof. intros Hm s. exists []. by rewrite app_nil_r, Hm. Qed.

Lemma runs_only_run_chain (P : string * option string -> Prop) (ts : list Task) :
  Forall (runs_only P) ts ->
  forall s, exists cmds,
    commands (snd (run_chain ts s)) = commands s ++ cmds /\ Forall P cmds.
Proof.
  induction 1 as [|t ts Ht Hts IH]; intros s; simpl.
  - exists []. by rewrite app_nil_r.
  - destruct (Ht s) as (cmds & Hcmds & HP).
    destruct (t s) as [[[|[]|err]|err] s0]; simpl in *; try by exists cmds.
    destruct (IH s0) as (cmds' & Hcmds' & HP').
    exists (cmds ++ cmds'). split; [|by apply Forall_app].
    by rewrite Hcmds', Hcmds, <- app_assoc.
Qed.

(** Whatever it is given as first argument, [createIpa] with an
    undefined second argument runs no command or a bare packaging
    command. *)
Lemma createIpa_bare {A} (x : A) : runs_only (bare h) (createIpa h x AUndef).
Proof.
  intros s. unfold createIpa, bind, get.
  pose proof (ios_platform_version_state h s) as Hs.
  destruct (ios_platform_version h s) as [[v|e] s']; simpl in Hs; subst s';
    [|exists []; by rewrite app_nil_r].
  unfold semver_lt_undef.
  destruct (semver_lt h v "3.9.0") as [[|]|]; simpl;
    try (exists []; split; [|done]; unfold commands; simpl;
         rewrite ?execs_app; simpl; by rewrite ?app_nil_r).
  destruct (glob h _ (world s)) as [err|[|m [|m' l]]]; simpl;
    try (exists []; split; [|done]; unfold commands; simpl;
         rewrite ?execs_app; simpl; by rewrite ?app_nil_r).
  destruct (createIpa_matches_single h m s) as (r & _ & Hcmd).
  exists [(ipa_command h m, None)]. split; [exact Hcmd|].
  repeat constructor. by exists m.
Qed.

(** [packageProject] after setup: every command it runs is a bare
    packaging command, whatever [args] is. *)
Lemma packageProject_then_bare (ps : list string) (args : JsArgs) (c : Cordova) :
  runs_only (bare h) (packageProject_then h ps args c).
Proof.
  intros s. unfold packageProject_then. unfold bind at 1.
  rewrite packageProject_loop. simpl.
  destruct (runs_only_run_chain (bare h)
              ((fun _ => createIpa h args AUndef) <$> List.filter is_ios ps))
    with (s := emit_all (no_package_notes ps) s) as (cmds & Hcmds & HP).
  { apply Forall_fmap, Forall_forall. intros p _. apply createIpa_bare. }
  destruct (run_chain _ _) as [r s2]. simpl in *.
  exists cmds. split; [|exact HP].
  rewrite Hcmds. by rewrite (commands_emit_all _ _ (execs_no_package_notes ps)).
Qed.

(** C2 (as the code behaves). With an iOS platform below 3.9.0 and a
    glob that finds no bundle or several, [createIpa] writes the warning
    and runs no command, but [deferred] is neither resolved nor
    rejected: the promise it returns stays pending.  So does the promise
    of [packageProject]'s callback for every platform list that has
    [ios] in it, and the run stops there. *)
Theorem createIpa_skip_never_settles {A} (cordova : A) (c : Cordova) (args : JsArgs)
    (ps : list string) (s : State) (v : string) (matches : list string) :
  fst (ios_platform_version h s) = Ok v ->
  semver_lt h v "3.9.0" = Some true ->
  glob h (app_pattern s) (world s) = inr matches ->
  length matches <> 1 ->
  In "ios" ps ->
  createIpa h cordova args s =
    (Ok Pending, emit (ConsoleWarn (skip_note (length matches))) s)
  /\ commands (snd (createIpa h cordova args s)) = commands s
  /\ packageProject_then h ps args c s =
       (Ok Pending,
        emit (ConsoleWarn (skip_note (length matches))) (emit_all (no_package_notes ps) s)).
Proof.
  intros Hv Hlt Hglob Hlen Hin.
  assert (Hc : forall B (x : B) a notes,
            createIpa h x a (emit_all notes s) =
            (Ok Pending, emit (ConsoleWarn (skip_note (length matches))) (emit_all notes s))).
  { intros B x a notes.
    rewrite (createIpa_eq h x a (emit_all notes s) v true);
      [|by rewrite ios_platform_version_emit_all|done].
    change (glob h (app_pattern (emit_all notes s)) (world (emit_all notes s)))
      with (glob h (app_pattern s) (world s)).
    rewrite Hglob. by apply createIpa_matches_skip. }
  split; [|split].
  - specialize (Hc A cordova args []). by rewrite emit_all_nil in Hc.
  - specialize (Hc A cordova args []). rewrite emit_all_nil in Hc. rewrite Hc.
    unfold commands. simpl. rewrite execs_app. simpl. by rewrite app_nil_r.
  - unfold packageProject_then. unfold bind at 1. rewrite packageProject_loop. simpl.
    destruct (filter_is_ios_cons ps Hin) as (l & ->). simpl.
    by rewrite Hc.
Qed.

(** C3 (as the code behaves). When the iOS packaging step of
    [packageProject] finds exactly one bundle [m], the command it runs
    is the bare packaging command for [m]: it names [m] as input and
    [dirname m / basename m .app] with [.ipa] as output, and no option
    is appended, whatever [args] was given to [packageProject]; any
    further command of the call (for an [ios] that stands twice in the
    list) is bare as well. *)
Theorem packageProject_then_runs_bare_command (c : Cordova) (args : JsArgs)
    (ps : list string) (s : State) (v m : string) :
  fst (ios_platform_version h s) = Ok v ->
  semver_lt h v "3.9.0" = Some true ->
  glob h (app_pattern s) (world s) = inr [m] ->
  In "ios" ps ->
  exists rest,
    commands (snd (packageProject_then h ps args c s))
    = commands s ++ (ipa_command h m, None) :: rest
    /\ Forall (bare h) rest.
Proof.
  intros Hv Hlt Hglob Hin.
  unfold packageProject_then. unfold bind at 1. rewrite packageProject_loop. simpl.
  destruct (filter_is_ios_cons ps Hin) as (l & ->). simpl.
  set (s1 := emit_all (no_package_notes ps) s).
  assert (Hs1 : commands s1 = commands s)
    by apply (commands_emit_all _ _ (execs_no_package_notes ps)).
  rewrite (createIpa_eq h args AUndef s1 v true);
    [|by unfold s1; rewrite ios_platform_version_emit_all|done].
  change (glob h (app_pattern s1) (world s1)) with (glob h (app_pattern s) (world s)).
  rewrite Hglob.
  destruct (createIpa_matches_single h m s1) as (r & Hr & Hcmd).
  destruct (createIpa_matches h AUndef (inr [m]) s1) as [res s2]. simpl in Hr, Hcmd.
  subst res. rewrite Hs1 in Hcmd.
  destruct r as [|[]|err]; simpl; try (exists []; by rewrite Hcmd).
  destruct (runs_only_run_chain (bare h)
              ((fun _ => createIpa h args AUndef) <$> l))
    with (s := s2) as (cmds & Hcmds & HP).
  { apply Forall_fmap, Forall_forall. intros p _. apply createIpa_bare. }
  destruct (run_chain _ s2) as [r' s3]. simpl in *.
  exists cmds. split; [|exact HP].
  by rewrite Hcmds, Hcmd, <- app_assoc.
Qed.

End Package.

(** ** Further properties: configure and the version *)

Section ConfigureMore.

Variable h : Host.

(** X1. [configure] twice with the same options is [configure] once:
    the second call returns or throws as the first and leaves the state
    of the first. *)
Theorem configure_idempotent (obj : Options) (s : State) :
  configure h obj (snd (configure h obj s)) = configure h obj s.
Proof.
  rewrite (configure_eq h obj s). cbv zeta.
  destruct obj as [oc ov op]. unfold effective_projectPath. simpl.
  destruct op as [p|]; simpl;
    destruct (existsSync _ (world s)) eqn:Hex; simpl;
    rewrite configure_eq; cbv zeta; unfold effective_projectPath; simpl;
    destruct oc, ov; simpl; rewrite ?Hex; reflexivity.
Qed.

(** X2. A [configure] that throws has made its assignments all the same:
    the project path is the missing one.  So every later [configure]
    that brings no [projectPath] throws the same value, and so does
    [setupCordova] called with such options. *)
Theorem configure_failure_persists (o1 o2 : Options) (s : State) (e : string) :
  fst (configure h o1 s) = Throw e ->
  obj_projectPath o2 = None ->
  fst (configure h o2 (snd (configure h o1 s))) = Throw e
  /\ fst (setupCordova h (Some o2) (snd (configure h o1 s))) = Throw e.
Proof.
  intros Hthrow Hnone.
  assert (H2 : fst (configure h o2 (snd (configure h o1 s))) = Throw e).
  { rewrite configure_eq. cbv zeta.
    assert (Heff : effective_projectPath h o2 (snd (configure h o1 s))
                   = effective_projectPath h o1 s).
    { unfold effective_projectPath at 1. rewrite Hnone. apply configure_projectPath. }
    destruct (configure_fields h o1 s) as (_ & _ & _ & Hw & _).
    rewrite Heff, Hw.
    rewrite configure_eq in Hthrow. cbv zeta in Hthrow.
    destruct (existsSync _ _); [discriminate|]. exact Hthrow. }
  split; [exact H2|].
  unfold setupCordova. unfold bind at 1.
  destruct (configure h o2 _) as [[[]|e'] s2]; simpl in *; congruence.
Qed.

(** X3. A version that is set is never resolved again.  Unless the
    options bring another version, [setupCordova] leaves the version as
    it is, whatever taco.json and the environment say by then. *)
Theorem setupCordova_keeps_version (obj : option Options) (s : State) (v : string) :
  cordovaVersion s = Some v ->
  obj ≫= obj_cordovaVersion = None ->
  cordovaVersion (snd (setupCordova h obj s)) = Some v.
Proof.
  intros Hv Hobj.
  unfold setupCordova.
  assert (Hc : cordovaVersion
                 (snd ((match obj with Some o => configure h o | None => ret tt end) s))
               = Some v).
  { destruct obj as [o|]; [|exact Hv]. simpl in Hobj.
    destruct (configure_fields h o s) as (_ & _ & _ & _ & Hcv).
    by rewrite Hcv, Hobj. }
  unfold bind at 1.
  destruct ((match obj with Some o => configure h o | None => ret tt end) s)
    as [[[]|e] s1]; simpl in Hc; [|exact Hc].
  unfold bind at 1, get at 1.
  destruct (already_loaded s1); [exact Hc|].
  rewrite (bind_keeps_tail cordovaVersion) by (intros; apply install_or_load_cordovaVersion).
  by rewrite resolve_version_cordovaVersion, Hc.
Qed.

(** X4. The cache hit by directory.  When the version is set and the
    cache holds a directory for it, [setupCordova] runs no command. *)
Theorem setupCordova_directory_hit (s : State) (v : string) :
  cordovaVersion s = Some v ->
  existsSync (cordovaCache s) (world s) = true ->
  existsSync (module_path h s v) (world s) = true ->
  commands (snd (setupCordova h None s)) = commands s.
Proof.
  intros Hv Hcache Hdir.
  unfold setupCordova, bind at 1, ret at 1, bind at 1, get at 1.
  destruct (already_loaded s); [reflexivity|].
  assert (Hres : resolve_version h s = (Ok tt, s)).
  { unfold resolve_version, bind, get. by rewrite Hv. }
  unfold bind at 1. rewrite Hres.
  by apply (install_or_load_cache_hit h s v).
Qed.

End ConfigureMore.

(** ** Further properties: loading the module *)

Section Load.

Variable h : Host.

Lemma not_loaded_cond (s : State) :
  already_loaded s = None ->
  bool_decide (cdv s = None)
  || negb (bool_decide (loadedCordovaVersion s = cordovaVersion s)) = true.
Proof.
  unfold already_loaded. destruct (cdv s) as [c|]; [|done].
  destruct (bool_decide (cordovaVersion s = loadedCordovaVersion s)) eqn:Hd; [done|].
  intros _. apply bool_decide_eq_false in Hd. simpl.
  apply negb_true_iff, bool_decide_eq_false. congruence.
Qed.

Lemma setupCordova_loaded (s : State) (c : Cordova) :
  already_loaded s = Some c -> setupCordova h None s = (Ok (Fulfilled c), s).
Proof. intros Hl. unfold setupCordova, bind, ret, get. by rewrite Hl. Qed.

(** [getCordova] up to the load of the package. *)
Lemma getCordova_eq (s : State) (v : string) (lt : bool) :
  already_loaded s = None ->
  cordovaVersion s = Some v ->
  chdir_error h (projectPath s) (world s) = None ->
  semver_lt h v "3.7.0" = Some lt ->
  getCordova h s =
  let s0 := set_world (load_world h s) (set_loadedCordovaVersion (Some v) s) in
  match require_module h (package_dir h s v lt) (load_world h s) with
  | Throw e => (Throw e, s0)
  | Ok m =>
      let s1 := set_cdv (Some (unwrap m)) s0 in
      if existsSync (plugin_dir h s) (load_world h s)
      then (Ok (Fulfilled (unwrap m)), emit (ConsoleLog "Support plugin already added.") s1)
      else
        let out := raw_plugin_add h (unwrap m) (SUPPORT_PLUGIN h) (load_world h s) in
        (Ok match fst out with
            | Fulfilled _ => Fulfilled (unwrap m)
            | Rejected e => Rejected e
            | Pending => Pending
            end,
         emit_all (settle (fst out))
           (set_world (snd out)
              (emit (PluginAdd (unwrap m) (SUPPORT_PLUGIN h))
                 (emit (ConsoleLog "Adding support plugin.") s1))))
  end.
Proof.
  intros Hl Hv Hcd Hlt. cbv zeta.
  unfold getCordova, bind at 1, get at 1.
  rewrite (not_loaded_cond s Hl), Hv.
  unfold bind at 1, modify at 1. unfold bind at 1, chdir at 1. simpl.
  rewrite Hcd.
  unfold bind at 1, setenv at 1, modify at 1.
  unfold bind at 1, setenv at 1, modify at 1.
  unfold bind at 1, semver_lt_undef. rewrite Hlt. unfold ret at 1.
  unfold bind at 1, join_undef. simpl.
  unfold bind at 1, get at 1. simpl.
  change (require_module h _ _)
    with (require_module h (package_dir h s v lt) (load_world h s)).
  destruct (require_module h (package_dir h s v lt) (load_world h s)) as [m|e];
    [|reflexivity].
  change (match mod_cordova m with Some c' => c' | None => mod_obj m end) with (unwrap m).
  unfold bind at 1, modify at 1. unfold bind at 1, get at 1. simpl.
  change (existsSync _ _) with (existsSync (plugin_dir h s) (load_world h s)).
  destruct (existsSync (plugin_dir h s) (load_world h s)); simpl; [reflexivity|].
  unfold bind at 1, console_log, modify at 1.
  unfold bind at 1. rewrite call_world_eq. simpl.
  change (raw_plugin_add h (unwrap m) (SUPPORT_PLUGIN h) _)
    with (raw_plugin_add h (unwrap m) (SUPPORT_PLUGIN h) (load_world h s)).
  destruct (raw_plugin_add h (unwrap m) (SUPPORT_PLUGIN h) (load_world h s)) as [[|[]|e] w];
    reflexivity.
Qed.

(** X7. How [getCordova] loads.  When the module is not loaded for
    the version [v], the working directory becomes the project and the
    two variables of the environment are set; the package is loaded from
    the directory [cordova] of the version for [v] below 3.7.0 and from
    [cordova-lib] from 3.7.0 on; an error of the load is thrown, and the
    module is then left as it was while the version counts as loaded.
    Otherwise the module is the [cordova] property of the package, or
    the package itself when it has none; the support plugin is added
    exactly when the project has no directory for it, and then the
    promise of the addition decides the result. *)
Theorem getCordova_loads (s : State) (v : string) (lt : bool) :
  already_loaded s = None ->
  cordovaVersion s = Some v ->
  chdir_error h (projectPath s) (world s) = None ->
  semver_lt h v "3.7.0" = Some lt ->
  loadedCordovaVersion (snd (getCordova h s)) = Some v
  /\ package_dir h s v lt =
       path_join h [cordovaCache s; v; "node_modules"; if lt then "cordova" else "cordova-lib"]
  /\ cwd (load_world h s) = projectPath s
  /\ env (load_world h s) !! "CORDOVA_HOME" = Some (path_join h [cordovaCache s; "_cordova"])
  /\ env (load_world h s) !! "PLUGMAN_HOME" = Some (path_join h [cordovaCache s; "_plugman"])
  /\ match require_module h (package_dir h s v lt) (load_world h s) with
     | Throw e =>
         fst (getCordova h s) = Throw e
         /\ cdv (snd (getCordova h s)) = cdv s
         /\ world (snd (getCordova h s)) = load_world h s
         /\ trace (snd (getCordova h s)) = trace s
     | Ok m =>
         cdv (snd (getCordova h s)) = Some (unwrap m)
         /\ if existsSync (plugin_dir h s) (load_world h s)
            then fst (getCordova h s) = Ok (Fulfilled (unwrap m))
                 /\ world (snd (getCordova h s)) = load_world h s
                 /\ trace (snd (getCordova h s))
                    = trace s ++ [ConsoleLog "Support plugin already added."]
            else let out := raw_plugin_add h (unwrap m) (SUPPORT_PLUGIN h) (load_world h s) in
                 fst (getCordova h s)
                 = Ok match fst out with
                      | Fulfilled _ => Fulfilled (unwrap m)
                      | Rejected e => Rejected e
                      | Pending => Pending
                      end
                 /\ world (snd (getCordova h s)) = snd out
                 /\ trace (snd (getCordova h s))
                    = trace s ++ [ConsoleLog "Adding support plugin.";
                                  PluginAdd (unwrap m) (SUPPORT_PLUGIN h)]
                              ++ settle (fst out)
     end.
Proof.
  intros Hl Hv Hcd Hlt.
  rewrite (getCordova_eq s v lt Hl Hv Hcd Hlt). cbv zeta.
  split.
  { destruct (require_module h _ _) as [m|e]; [|done].
    by destruct (existsSync _ _). }
  split; [reflexivity|]. split; [reflexivity|].
  split. { unfold load_world. simpl. rewrite lookup_insert_ne by done.
           by rewrite lookup_insert_eq. }
  split. { unfold load_world. simpl. by rewrite lookup_insert_eq. }
  destruct (require_module h _ _) as [m|e]; [|done].
  destruct (existsSync _ _); simpl; [done|].
  repeat split. by rewrite <- !app_assoc.
Qed.

Lemma wpx_bind {A C} (m : M A) (k : A -> M C) (Q : State -> Prop) (s : State) :
  wpx m Q s -> wp m (fun a s1 => wpx (k a) Q s1) s -> wpx (bind m k) Q s.
Proof. unfold wpx, wp, bind. by destruct (m s) as [[a|e] s1]. Qed.

Lemma wpx_keeps {A B} (f : State -> B) (m : M A) (Q : State -> Prop) (s : State) :
  keeps f m -> (forall s1, f s1 = f s -> Q s1) -> wpx m Q s.
Proof.
  intros Hm HQ. unfold wpx. specialize (Hm s).
  destruct (m s) as [[a|e] s1]; [done|by apply HQ].
Qed.

Lemma wpx_get_bind {C} (k : State -> M C) (Q : State -> Prop) (s : State) :
  wpx (k s) Q s -> wpx (bind get k) Q s.
Proof. done. Qed.

(** A step that leaves the three variables alone, inside a sequence. *)
Lemma wpx_bind_keeps {A C} (m : M A) (k : A -> M C) (Q : State -> Prop) (s : State) :
  keeps core m ->
  (forall s1, core s1 = core s -> Q s1) ->
  (forall a s1, core s1 = core s -> wpx (k a) Q s1) ->
  wpx (bind m k) Q s.
Proof.
  intros Hm HQ Hk. apply wpx_bind.
  - by apply (wpx_keeps core).
  - apply (wp_keeps core); [exact Hm|]. intros a s1 Hs1. by apply Hk.
Qed.

(** What follows the load of the package never throws. *)
Lemma after_load_returns (c : Cordova) (s : State) :
  exists r s',
    bind (modify (set_cdv (Some c)))
      (fun _ => bind get (fun s2 =>
         if negb (existsSync (path_join h [projectPath s2; "plugins"; SUPPORT_PLUGIN_ID])
                    (world s2))
         then bind (console_log "Adding support plugin.")
                (fun _ => bind (call_world (PluginAdd c (SUPPORT_PLUGIN h))
                                  (raw_plugin_add h c (SUPPORT_PLUGIN h)))
                   (fun p => then_ p (fun _ => bind get (fun s3 =>
                      match cdv s3 with
                      | Some c3 => ret (Fulfilled c3)
                      | None => throw "unreachable: cdv is set"
                      end))))
         else bind (console_log "Support plugin already added.")
                (fun _ => ret (Fulfilled c)))) s
    = (Ok r, s')
    /\ core s' = (Some c, loadedCordovaVersion s, cordovaVersion s).
Proof.
  unfold bind at 1, modify at 1. unfold bind at 1, get at 1.
  destruct (negb (existsSync _ _)).
  - unfold bind at 1, console_log, modify at 1.
    unfold bind at 1. rewrite call_world_eq.
    destruct (raw_plugin_add h c (SUPPORT_PLUGIN h) _) as [[|[]|e] w]; simpl;
      eexists _, _; split; reflexivity.
  - eexists _, _; split; reflexivity.
Qed.

(** X8. Whenever [getCordova] returns a promise, whatever becomes of
    the promise, the module is loaded and counts as loaded for the
    version wanted.  So the next [setupCordova] hands the module out at
    once and does nothing else, also after an addition of the support
    plugin that was rejected. *)
Theorem getCordova_returns_loaded (s s1 : State) (r : Promise Cordova) :
  getCordova h s = (Ok r, s1) ->
  exists c,
    cdv s1 = Some c
    /\ loadedCordovaVersion s1 = cordovaVersion s1
    /\ setupCordova h None s1 = (Ok (Fulfilled c), s1)
    /\ (forall c', r = Fulfilled c' -> c' = c).
Proof.
  intros Hrun.
  cut (wp (getCordova h)
          (fun r s1 => exists c, cdv s1 = Some c
                                 /\ loadedCordovaVersion s1 = cordovaVersion s1
                                 /\ forall c', r = Fulfilled c' -> c' = c) s).
  { unfold wp. rewrite Hrun. intros (c & Hc & Hv & Hr).
    exists c. repeat split; try done.
    apply setupCordova_loaded. unfold already_loaded. rewrite Hc.
    by rewrite bool_decide_true. }
  clear Hrun. unfold getCordova.
  apply wp_bind, wp_get.
  destruct (bool_decide (cdv s = None) || _) eqn:Hcond.
  - apply wp_bind, wp_modify.
    apply wp_bind; apply (wp_keeps core); [solve [keeps_all]|intros _ t1 T1].
    apply wp_bind; apply (wp_keeps core); [solve [keeps_all]|intros _ t2 T2].
    apply wp_bind; apply (wp_keeps core); [solve [keeps_all]|intros _ t3 T3].
    apply wp_bind; apply (wp_keeps core); [solve [keeps_all]|intros lt t4 T4].
    apply wp_bind; apply (wp_keeps core); [solve [keeps_all]|intros dir t5 T5].
    apply wp_bind, wp_get.
    destruct (require_module h _ _) as [m|e]; [|apply wp_throw].
    cbv zeta.
    assert (Hv : loadedCordovaVersion t5 = cordovaVersion t5).
    { unfold core in *. simplify_eq/=. congruence. }
    set (c := match mod_cordova m with Some c' => c' | None => mod_obj m end).
    unfold wp.
    unfold bind at 1, modify at 1. unfold bind at 1, get at 1.
    destruct (negb (existsSync _ _)).
    + unfold bind at 1, console_log, modify at 1.
      unfold bind at 1. rewrite call_world_eq.
      destruct (raw_plugin_add h c (SUPPORT_PLUGIN h) _) as [[|[]|e] w]; simpl;
        exists c; repeat split; try done; congruence.
    + simpl. exists c. repeat split; try done. congruence.
  - apply orb_false_iff in Hcond as [Hc Hv].
    apply negb_false_iff, bool_decide_eq_true in Hv.
    destruct (cdv s) as [c|] eqn:Hcdv; [|apply wp_throw].
    apply wp_ret. exists c. repeat split; try done. congruence.
Qed.

(** X9. When [getCordova] throws while a module is loaded, that
    module was loaded for another version; it stays in place and now
    counts as loaded for the version wanted, so the next [setupCordova]
    hands it out at once. *)
Theorem getCordova_throw_keeps_module (s : State) (c : Cordova) (e : string) :
  cdv s = Some c ->
  fst (getCordova h s) = Throw e ->
  loadedCordovaVersion s <> cordovaVersion s
  /\ cdv (snd (getCordova h s)) = Some c
  /\ cordovaVersion (snd (getCordova h s)) = cordovaVersion s
  /\ loadedCordovaVersion (snd (getCordova h s)) = cordovaVersion s
  /\ setupCordova h None (snd (getCordova h s)) = (Ok (Fulfilled c), snd (getCordova h s)).
Proof.
  intros Hc Hthrow.
  cut (wpx (getCordova h)
           (fun s1 => loadedCordovaVersion s <> cordovaVersion s
                      /\ core s1 = (Some c, cordovaVersion s, cordovaVersion s)) s).
  { unfold wpx. destruct (getCordova h s) as [[r|e'] s1]; simpl in *; [discriminate|].
    unfold core. intros (Hne & [= Hc1 Hl1 Hv1]).
    repeat split; try done.
    apply setupCordova_loaded. unfold already_loaded. rewrite Hc1.
    rewrite bool_decide_true; [done|congruence]. }
  clear Hthrow. unfold getCordova.
  apply wpx_get_bind.
  destruct (bool_decide (cdv s = None) || _) eqn:Hcond.
  - assert (Hne : loadedCordovaVersion s <> cordovaVersion s).
    { rewrite Hc in Hcond. rewrite bool_decide_false in Hcond by done. simpl in Hcond.
      by apply negb_true_iff, bool_decide_eq_false in Hcond. }
    apply wpx_bind; [done|]. apply wp_modify.
    assert (H0 : core (set_loadedCordovaVersion (cordovaVersion s) s)
                 = (Some c, cordovaVersion s, cordovaVersion s))
      by (unfold core; simpl; by rewrite Hc).
    apply wpx_bind_keeps; [keeps_all| intros; split; [done|congruence] |intros _ s1 H1].
    apply wpx_bind_keeps; [keeps_all| intros; split; [done|congruence] |intros _ s2 H2].
    apply wpx_bind_keeps; [keeps_all| intros; split; [done|congruence] |intros _ s3 H3].
    apply wpx_bind_keeps; [keeps_all| intros; split; [done|congruence] |intros lt s4 H4].
    apply wpx_bind_keeps; [keeps_all| intros; split; [done|congruence] |intros dir s5 H5].
    apply wpx_get_bind.
    destruct (require_module h dir (world s5)) as [m|e'].
    + cbv zeta. unfold wpx.
      destruct (after_load_returns
                  match mod_cordova m with Some c' => c' | None => mod_obj m end s5)
        as (r & s' & Hrun & _).
      by rewrite Hrun.
    + unfold wpx, throw. split; [done|congruence].
  - rewrite Hc. done.
Qed.

(** X6. A version that [semver.lt] refuses.  When no module is
    loaded, [setupCordova] throws for such a version, before it has run
    any command and without a module loaded. *)
Theorem setupCordova_invalid_version_throws (s : State) (v : string) :
  cdv s = None ->
  cordovaVersion s = Some v ->
  semver_lt h v "3.7.0" = None ->
  (exists e, fst (setupCordova h None s) = Throw e)
  /\ commands (snd (setupCordova h None s)) = commands s
  /\ cdv (snd (setupCordova h None s)) = None.
Proof.
  intros Hc Hv Hsem.
  cut (exists e s1, setupCordova h None s = (Throw e, s1)
                    /\ commands s1 = commands s /\ cdv s1 = None).
  { intros (e & s1 & -> & Hcmd & Hc1). simpl. eauto. }
  unfold setupCordova, install_or_load, getCordova, resolve_version, already_loaded.
  unfold bind, ret, get, modify, throw, console_log, mkdirSync, chdir, setenv,
    join_undef, semver_lt_undef.
  simpl. rewrite Hc, Hv. simpl.
  repeat (match goal with
          | |- context [match ?x with _ => _ end] =>
              lazymatch x with
              | context [match _ with _ => _ end] => fail
              | _ => destruct x eqn:?
              end
          end; simpl; rewrite ?Hc, ?Hv, ?Hsem; simpl);
    try (eexists _, _; split; [reflexivity|]; split; [|done];
         unfold commands; simpl; rewrite ?execs_app; simpl; by rewrite ?app_nil_r).
Qed.

End Load.

(** ** Further properties: install, build and package *)

Section Sequences.

Variable h : Host.

(** X5. An install that fails.  On a cache miss whose command is
    rejected, [setupCordova] is rejected with the error of the command;
    the package is not loaded, the support plugin is not touched, and
    the module's variables for the loaded module stay as they were. *)
Theorem setupCordova_install_rejected (s : State) (v err : string) (lt : bool) :
  already_loaded s = None ->
  cordovaVersion s = Some v ->
  existsSync (cordovaCache s) (world s) = true ->
  existsSync (module_path h s v) (world s) = false ->
  mkdir_error h (module_path h s v) (world s) = None ->
  mkdir_error h (path_join h [module_path h s v; "node_modules"])
    (set_fs (<[module_path h s v := Dir]> (fs (world s))) (world s)) = None ->
  semver_lt h v "3.7.0" = Some lt ->
  fst (child_exec h "cordova" (Some (module_path h s v)) (install_world h s v))
    = Rejected err ->
  fst (setupCordova h None s) = Ok (Rejected err)
  /\ trace (snd (setupCordova h None s))
     = trace s ++ [ConsoleLog ("Cordova cache found at " +:+ cordovaCache s);
                   ConsoleLog ("Installing Cordova " +:+ v +:+ ".");
                   Exec "cordova" (Some (module_path h s v));
                   Rejects err]
  /\ cdv (snd (setupCordova h None s)) = cdv s
  /\ loadedCordovaVersion (snd (setupCordova h None s)) = loadedCordovaVersion s.
Proof.
  intros Hl Hv Hcache Hdir Hmk1 Hmk2 Hlt Hexec.
  cut (exists s1, setupCordova h None s = (Ok (Rejected err), s1)
         /\ trace s1
            = trace s ++ [ConsoleLog ("Cordova cache found at " +:+ cordovaCache s);
                          ConsoleLog ("Installing Cordova " +:+ v +:+ ".");
                          Exec "cordova" (Some (module_path h s v));
                          Rejects err]
         /\ cdv s1 = cdv s /\ loadedCordovaVersion s1 = loadedCordovaVersion s).
  { intros (s1 & -> & Hrest). by split. }
  unfold setupCordova, bind at 1, ret at 1, bind at 1, get at 1. rewrite Hl.
  assert (Hres : resolve_version h s = (Ok tt, s)).
  { unfold resolve_version, bind, get. by rewrite Hv. }
  unfold bind at 1. rewrite Hres.
  unfold install_or_load, bind at 1, get at 1. rewrite Hcache. simpl.
  unfold bind at 1, ret at 1. unfold bind at 1, console_log at 1, modify at 1.
  unfold bind at 1, join_undef. rewrite Hv. simpl.
  unfold bind at 1, get at 1. simpl.
  change (path_resolve h (cwd (world s)) (path_join h [cordovaCache s; v]))
    with (module_path h s v).
  rewrite Hdir. simpl.
  unfold bind at 1, mkdirSync at 1. simpl. rewrite Hmk1.
  unfold bind at 1, mkdirSync at 1. simpl. rewrite Hmk2.
  unfold bind at 1, console_log at 1, modify at 1.
  unfold bind at 1, semver_lt_undef. rewrite Hlt. unfold ret at 1.
  rewrite install_command_cordova.
  unfold bind at 1, exec. rewrite call_world_eq. simpl.
  change (child_exec h CORDOVA (Some (module_path h s v)) _)
    with (child_exec h "cordova" (Some (module_path h s v)) (install_world h s v)).
  destruct (child_exec h "cordova" (Some (module_path h s v)) (install_world h s v))
    as [r f]. simpl in Hexec. subst r. simpl.
  eexists; split; [reflexivity|]. simpl.
  repeat split. by rewrite <- !app_assoc.
Qed.

Lemma Schedule_In (plan seen : list Event) (r : Promise unit) (e : Event) :
  Schedule plan seen r -> In e seen ->
  In e plan \/ e = Resolves \/ exists err, e = Rejects err.
Proof.
  induction 1 as [|call plan seen r Hrun IH|call plan err|call plan]; simpl.
  - done.
  - intros [<-|[<-|Hin]]; [by left; left|by right; left|].
    destruct (IH Hin) as [Hp|Hs]; [left; by right|by right].
  - intros [<-|[<-|[]]]; [by left; left|right; right; by exists err].
  - intros [<-|[]]. by left; left.
Qed.

Lemma Schedule_fulfilled (plan seen : list Event) :
  Schedule plan seen (Fulfilled tt) -> seen = flat_map (fun e => [e; Resolves]) plan.
Proof.
  intros Hrun. remember (Fulfilled tt) as r eqn:Hr.
  induction Hrun as [|call plan seen r Hrun IH|call plan err|call plan]; simpl;
    try done. by rewrite IH.
Qed.

Lemma execs_already_added_notes (ps : list string) (s : State) :
  execs (already_added_notes h s ps) = [].
Proof.
  unfold already_added_notes. induction ps as [|p ps IH]; simpl; [done|].
  by destruct (negb (unregistered h s p)).
Qed.

Lemma run_chain_keeps_commands (ts : list Task) :
  Forall (keeps commands) ts ->
  forall s, commands (snd (run_chain ts s)) = commands s.
Proof.
  induction 1 as [|t ts Ht Hts IH]; intros s; simpl; [done|].
  specialize (Ht s).
  destruct (t s) as [[[|[]|err]|err] s0]; simpl in *; try done.
  by rewrite IH.
Qed.

Lemma add_task_commands (cordova : Cordova) (p : string) :
  keeps commands (add_task h cordova p).
Proof. unfold add_task. keeps_all. Qed.

Lemma build_task_commands (cordova : Cordova) (args : JsArgs) (p : string) :
  keeps commands (build_task h cordova args p).
Proof. unfold build_task. rewrite getCallArgs_single. keeps_all. Qed.

(** X10. What a build may call.  After setup, [buildProject] runs no
    command; it registers only platforms of the list that had no
    directory under [platforms] when its loop ran, and builds only
    platforms of the list, each with the options that [getCallArgs]
    finds for it; every call goes to the module that setup handed out. *)
Theorem buildProject_then_only_listed (ps : list string) (args : JsArgs) (cordova : Cordova)
    (s : State) :
  exists run,
    trace (snd (buildProject_then h ps args cordova s))
    = trace s ++ already_added_notes h s ps ++ run
    /\ (forall c p, In (PlatformAdd c p) run ->
          c = cordova /\ In p ps /\ unregistered h s p = true)
    /\ (forall c callArgs, In (BuildCall c callArgs) run ->
          c = cordova
          /\ exists p, In p ps /\ callArgs = MkCallArgs [p] (options_for p args))
    /\ commands (snd (buildProject_then h ps args cordova s)) = commands s.
Proof.
  destruct (buildProject_then_schedule h ps args cordova s)
    as (r & s' & run & Hrun & Htrace & Hsched).
  exists run. rewrite Hrun. simpl.
  assert (Hplan : forall e, In e run -> is_step e = true ->
            In e (build_plan h cordova ps args s) \/ e = Resolves
            \/ exists err, e = Rejects err).
  { intros e Hin Hstep. apply (Schedule_In _ _ _ _ Hsched).
    unfold steps. apply filter_In. by split. }
  split; [exact Htrace|]. split; [|split].
  - intros c p Hin.
    destruct (Hplan _ Hin eq_refl) as [Hp|[Hp|[err Hp]]]; try discriminate.
    unfold build_plan in Hp. apply in_app_or in Hp as [Hp|Hp].
    + apply list_elem_of_In, list_elem_of_fmap in Hp as (q & [= -> ->] & Hq).
      apply list_elem_of_In, filter_In in Hq as [Hq Hreg]. done.
    + apply list_elem_of_In, list_elem_of_fmap in Hp as (q & Heq & _). discriminate.
  - intros c callArgs Hin.
    destruct (Hplan _ Hin eq_refl) as [Hp|[Hp|[err Hp]]]; try discriminate.
    unfold build_plan in Hp. apply in_app_or in Hp as [Hp|Hp].
    + apply list_elem_of_In, list_elem_of_fmap in Hp as (q & Heq & _). discriminate.
    + apply list_elem_of_In, list_elem_of_fmap in Hp as (q & [= -> ->] & Hq).
      split; [done|]. exists q. split; [by apply list_elem_of_In|done].
  - change s' with (snd (Ok r, s')). rewrite <- Hrun.
    unfold buildProject_then, addPlatformsToProject.
    unfold bind at 1. rewrite addPlatformsToProject_loop. simpl.
    unfold bind at 1. rewrite build_loop.
    pose proof (run_chain_keeps_commands
                  ((add_task h cordova <$> List.filter (unregistered h s) ps)
                   ++ (build_task h cordova args <$> ps))) as Hkeep.
    destruct (run_chain _ _) as [r' s2] eqn:Hchain. simpl.
    specialize (Hkeep ltac:(apply Forall_app; split; apply Forall_fmap, Forall_forall;
                            intros; [apply add_task_commands|apply build_task_commands])
                      (emit_all (already_added_notes h s ps) s)).
    rewrite Hchain in Hkeep. simpl in Hkeep. rewrite Hkeep.
    apply commands_emit_all, execs_already_added_notes.
Qed.

(** X11. A build that is fulfilled is complete.  When the promise of
    [buildProject]'s callback is fulfilled, every registration and every
    build of the plan was called, in order, and the Cordova module
    answered each one, [cordova.raw.platform] and [cordova.raw.build]
    alike, with a fulfilled promise in the world that the call before
    it had left: every platform of the list was built, as often as it
    is listed, and the world afterwards is the one that the last build
    left. *)
Theorem buildProject_then_fulfilled_complete (ps : list string) (args : JsArgs)
    (cordova : Cordova) (s s' : State) :
  buildProject_then h ps args cordova s = (Ok (Fulfilled tt), s') ->
  all_resolve h (build_plan h cordova ps args s) (world s)
  /\ world s' = plan_world (run_plan h (build_plan h cordova ps args s) (world s))
  /\ exists run,
       trace s' = trace s ++ already_added_notes h s ps ++ run
       /\ steps run = flat_map (fun e => [e; Resolves]) (build_plan h cordova ps args s).
Proof.
  intros Hdone.
  destruct (buildProject_then_run_plan h ps args cordova s)
    as (s2 & run & Hrun & Hworld & Htrace & Hseen).
  rewrite Hdone in Hrun. injection Hrun as Hr <-.
  split; [by apply run_plan_all_resolve|]. split; [exact Hworld|].
  exists run. split; [exact Htrace|].
  apply Schedule_fulfilled. rewrite Hseen, Hr. apply run_plan_schedule.
Qed.

(** X12. Platforms other than iOS need no packaging.  For a list
    without [ios], [packageProject] sets Cordova up and, when that is
    fulfilled, is fulfilled at once, having written one note per
    platform; it runs no packaging command and reads no file of the
    project.  A setup that throws, is rejected or never settles is the
    result. *)
Theorem packageProject_other_platforms (cordovaPlatforms : Platforms) (args : JsArgs)
    (s : State) :
  ~ In "ios" (platform_list cordovaPlatforms) ->
  packageProject h cordovaPlatforms args s =
  match setupCordova h None s with
  | (Ok (Fulfilled _), s1) =>
      (Ok (Fulfilled tt), emit_all (no_package_notes (platform_list cordovaPlatforms)) s1)
  | (Ok (Rejected err), s1) => (Ok (Rejected err), s1)
  | (Ok Pending, s1) => (Ok Pending, s1)
  | (Throw err, s1) => (Throw err, s1)
  end.
Proof.
  intros Hno.
  assert (Hf : List.filter is_ios (platform_list cordovaPlatforms) = []).
  { destruct (List.filter is_ios (platform_list cordovaPlatforms)) as [|p l] eqn:Hfilter;
      [done|].
    assert (Hp : In p (List.filter is_ios (platform_list cordovaPlatforms)))
      by (rewrite Hfilter; by left).
    apply filter_In in Hp as [Hin Hp]. unfold is_ios in Hp.
    apply bool_decide_eq_true in Hp as ->. done. }
  unfold packageProject. cbv zeta. unfold bind at 1.
  destruct (setupCordova h None s) as [[[|c|err]|err] s1]; try reflexivity.
  unfold then_, packageProject_then, bind at 1.
  rewrite packageProject_loop, Hf. reflexivity.
Qed.

Lemma execs_replicate_log (n : nat) (msg : string) :
  execs (replicate n (ConsoleLog msg)) = [].
Proof. induction n as [|n IH]; [done|exact IH]. Qed.

Lemma run_chain_recent_ios {A} (x : A) (args : JsArgs) (l : list string) (s : State)
    (v : string) (notes : list Event) :
  fst (ios_platform_version h s) = Ok v ->
  semver_lt h v "3.9.0" = Some false ->
  run_chain ((fun _ => createIpa h x args) <$> l) (emit_all notes s)
  = (Fulfilled tt,
     emit_all (notes ++ replicate (length l) (ConsoleLog auto_ipa_note)) s).
Proof.
  intros Hv Hlt. revert notes. induction l as [|p l IH]; intros notes; simpl.
  - by rewrite app_nil_r.
  - rewrite (createIpa_eq h x args (emit_all notes s) v false);
      [|by rewrite ios_platform_version_emit_all|done].
    unfold emit. rewrite emit_all_emit_all, IH.
    by rewrite <- app_assoc.
Qed.

(** X13. An iOS platform from 3.9.0 on needs no packaging.  Whatever
    the list, [packageProject]'s callback is then fulfilled: it writes
    its notes, one more for each [ios] of the list, and runs no
    command. *)
Theorem packageProject_then_recent_ios (ps : list string) (args : JsArgs) (c : Cordova)
    (s : State) (v : string) :
  fst (ios_platform_version h s) = Ok v ->
  semver_lt h v "3.9.0" = Some false ->
  packageProject_then h ps args c s
  = (Ok (Fulfilled tt),
     emit_all (no_package_notes ps
               ++ replicate (length (List.filter is_ios ps)) (ConsoleLog auto_ipa_note)) s)
  /\ commands (snd (packageProject_then h ps args c s)) = commands s.
Proof.
  intros Hv Hlt.
  assert (Hrun : packageProject_then h ps args c s
                 = (Ok (Fulfilled tt),
                    emit_all (no_package_notes ps
                              ++ replicate (length (List.filter is_ios ps))
                                   (ConsoleLog auto_ipa_note)) s)).
  { unfold packageProject_then, bind at 1. rewrite packageProject_loop. simpl.
    by rewrite (run_chain_recent_ios args AUndef _ s v _ Hv Hlt). }
  split; [exact Hrun|]. rewrite Hrun. simpl.
  apply commands_emit_all. rewrite execs_app, execs_no_package_notes. simpl.
  apply execs_replicate_log.
Qed.

(** X14. [createIpa] with options of its own.  Called with an [args]
    that holds options for iOS, on a platform below 3.9.0 with one
    bundle [m], [createIpa] runs one command: the packaging command for
    [m] followed by the options, each after a blank, in order.  Its
    promise is fulfilled when the command ends well, rejected with the
    error of the command when it fails, and pending while the command
    runs. *)
Theorem createIpa_appends_options {A} (x : A) (args : JsArgs) (s : State)
    (v m : string) (opts : list string) :
  fst (ios_platform_version h s) = Ok v ->
  semver_lt h v "3.9.0" = Some true ->
  glob h (app_pattern s) (world s) = inr [m] ->
  options_for "ios" args = Some opts ->
  commands (snd (createIpa h x args s))
    = commands s ++ [(ipa_command_with h m opts, None)]
  /\ fst (createIpa h x args s)
     = Ok (deferred_of (fst (child_exec h (ipa_command_with h m opts) None (world s)))).
Proof.
  intros Hv Hlt Hglob Hopts.
  destruct (child_exec h (ipa_command_with h m opts) None (world s)) as [r f] eqn:Hexec.
  cut (exists s1, createIpa h x args s = (Ok (deferred_of r), s1)
                  /\ commands s1 = commands s ++ [(ipa_command_with h m opts, None)]).
  { intros (s1 & -> & Hcmd). by split. }
  rewrite (createIpa_eq h x args s v true Hv Hlt), Hglob.
  unfold createIpa_matches. rewrite getCallArgs_single. simpl. rewrite Hopts.
  change (foldl _ (ipa_command h m) opts) with (ipa_command_with h m opts).
  unfold bind at 1, console_log, modify at 1.
  unfold bind at 1, exec. rewrite call_world_eq. simpl. rewrite Hexec. simpl.
  destruct r as [|[out1 err1]|e]; simpl.
  - eexists; split; [reflexivity|]. unfold commands. simpl.
    rewrite !execs_app. simpl. by rewrite ?app_nil_r.
  - unfold handleExecReturn, bind, console_log, console_error, modify, ret. simpl.
    destruct (bool_decide (err1 = "")); simpl;
      (eexists; split; [reflexivity|]); unfold commands; simpl;
      rewrite !execs_app; simpl; by rewrite ?app_nil_r.
  - eexists; split; [reflexivity|]. unfold commands. simpl.
    rewrite !execs_app. simpl. by rewrite ?app_nil_r.
Qed.

Lemma getCallArgs_some (ps : Platforms) (args : JsArgs) (callArgs : CallArgs) :
  getCallArgs ps args = Some callArgs ->
  exists p, platform_list ps = [p] /\ callArgs = MkCallArgs [p] (options_for p args).
Proof.
  rewrite getCallArgs_eq.
  destruct (platform_list ps) as [|p [|q l]]; try done.
  intros [= <-]. by exists p.
Qed.

(** X15. [getCallArgs] and the shape of its arguments.  A platform
    given as a string and the same platform as a list of one give the
    same bundle; a bundle is returned exactly for one platform, and it
    then names that platform; the options are the array itself, the
    entry of the platform in an object, and the empty list when no
    [args] is given, so that a bundle made from an array or from no
    [args] never lacks its options. *)
Theorem getCallArgs_shape (p : string) (ps : Platforms) (args : JsArgs) :
  getCallArgs (PStr p) args = getCallArgs (PArr [p]) args
  /\ (is_Some (getCallArgs ps args) <-> length (platform_list ps) = 1)
  /\ (forall callArgs, getCallArgs ps args = Some callArgs ->
        platforms callArgs = platform_list ps
        /\ ((forall per, args <> AObj per) -> is_Some (options callArgs))
        /\ (args = AUndef -> options callArgs = Some [])
        /\ (forall opts, args = AArr opts -> options callArgs = Some opts)).
Proof.
  split; [by rewrite !getCallArgs_eq|]. split.
  - rewrite getCallArgs_eq.
    destruct (platform_list ps) as [|q [|q' l]]; simpl; split;
      try done; try (intros []; done); try (intros [=]); by eexists.
  - intros callArgs Hca.
    destruct (getCallArgs_some ps args callArgs Hca) as (q & Hq & ->). simpl.
    split; [done|].
    split; [|split].
    + intros Hobj. destruct args as [|opts|per]; simpl; try by eexists.
      by destruct (Hobj per).
    + by intros ->.
    + by intros opts ->.
Qed.

End Sequences.

(** ** The module at work on concrete inputs *)

Example version_from_options :
  cordovaVersion (snd (setupCordova Demo.asks_4_3_0
                         (Some (Demo.version_option "3.6.0"))
                         (Demo.start Demo.plain Demo.with_taco)))
  = Some "3.6.0".
Proof. vm_compute. reflexivity. Qed.

Example version_from_taco_json :
  cordovaVersion (snd (setupCordova Demo.asks_4_3_0 None
                         (Demo.start Demo.plain Demo.with_taco)))
  = Some "4.3.0".
Proof. vm_compute. reflexivity. Qed.

Example version_from_environment :
  cordovaVersion (snd (setupCordova Demo.plain None
                         (Demo.start Demo.plain
                            (Demo.world_of [] [("CORDOVA_DEFAULT_VERSION", "4.0.0")]))))
  = Some "4.0.0".
Proof. vm_compute. reflexivity. Qed.

Example version_built_in :
  cordovaVersion (snd (setupCordova Demo.plain None
                         (Demo.start Demo.plain (Demo.world_of [] []))))
  = Some "5.1.1".
Proof. vm_compute. reflexivity. Qed.

(** C4 (as the code behaves).  With no version configured and a
    taco.json at the project root that has no [cordova-cli] property
    (one that only names a kit, say), lines 57-59 take the undefined
    property as the version, whatever the default is: the third and the
    fourth source are never reached, although the first two are absent.
    So for such a project with [CORDOVA_DEFAULT_VERSION] at 4.0.0, where
    the stated order gives 4.0.0, the code, which by its comment
    on line 55 is to try the file and which does fall back to the
    default when there is no file, leaves the version undefined and
    throws from [path.join] on line 75. *)
Theorem version_resolution_skips_default :
  (forall (h : Host) (s : State),
      cordovaVersion s = None ->
      existsSync (path_join h [projectPath s; "taco.json"]) (world s) = true ->
      require_taco h (path_join h [projectPath s; "taco.json"]) (world s) = Ok None ->
      taco_version_found h s = None
      /\ cordovaVersion (snd (resolve_version h s)) = None)
  /\ let s0 := Demo.start Demo.plain Demo.with_taco in
     initial_state Demo.plain "linux" Demo.with_taco = Ok s0
     /\ fst (configure Demo.plain Demo.no_options s0) = Ok tt
     /\ taco_version_found Demo.plain (snd (configure Demo.plain Demo.no_options s0)) = None
     /\ spec_resolveVersion (obj_cordovaVersion Demo.no_options)
          (taco_version_found Demo.plain (snd (configure Demo.plain Demo.no_options s0)))
          (env Demo.with_taco !! "CORDOVA_DEFAULT_VERSION") = "4.0.0"
     /\ cordovaVersion (snd (setupCordova Demo.plain (Some Demo.no_options) s0)) = None
     /\ cordovaVersion (snd (setupCordova Demo.plain (Some Demo.no_options) s0))
        <> Some (spec_resolveVersion (obj_cordovaVersion Demo.no_options)
                   (taco_version_found Demo.plain
                      (snd (configure Demo.plain Demo.no_options s0)))
                   (env Demo.with_taco !! "CORDOVA_DEFAULT_VERSION"))
     /\ fst (setupCordova Demo.plain (Some Demo.no_options) s0)
        = Throw "TypeError: Arguments to path.join must be strings".
Proof.
  split.
  - intros h s Hv He Hr. unfold taco_version_found.
    rewrite resolve_version_cordovaVersion, Hv, He, Hr. done.
  - vm_compute. repeat split; try reflexivity. discriminate.
Qed.

(** The order at work: no version in the options, a taco.json that asks
    for 4.3.0, a default of 4.0.0 in the environment. *)
Lemma version_resolution_order_witness :
  initial_state Demo.asks_4_3_0 "linux" Demo.with_taco
    = Ok (Demo.start Demo.plain Demo.with_taco)
  /\ fst (configure Demo.asks_4_3_0 Demo.no_options
            (Demo.start Demo.plain Demo.with_taco)) = Ok tt
  /\ cordovaVersion (snd (setupCordova Demo.asks_4_3_0
                            (Some Demo.no_options) (Demo.start Demo.plain Demo.with_taco)))
     = Some "4.3.0".
Proof.
  assert (H1 : initial_state Demo.asks_4_3_0 "linux" Demo.with_taco
               = Ok (Demo.start Demo.plain Demo.with_taco)) by (vm_compute; reflexivity).
  assert (H2 : fst (configure Demo.asks_4_3_0 Demo.no_options
                      (Demo.start Demo.plain Demo.with_taco)) = Ok tt)
    by (vm_compute; reflexivity).
  split; [exact H1|split; [exact H2|]].
  rewrite (version_resolution_order _ _ _ _ _ H1 H2). vm_compute. reflexivity.
Defined.

(** A project path that is not there. *)
Lemma configure_missing_projectPath_witness :
  obj_projectPath (Demo.path_option "/nowhere") = Some "/nowhere"
  /\ existsSync "/nowhere" (world (Demo.start Demo.plain (Demo.world_of [] []))) = false
  /\ fst (setupCordova Demo.plain (Some (Demo.path_option "/nowhere"))
            (Demo.start Demo.plain (Demo.world_of [] [])))
     = Throw (missing_path_error "/nowhere")
  /\ trace (snd (setupCordova Demo.plain (Some (Demo.path_option "/nowhere"))
                   (Demo.start Demo.plain (Demo.world_of [] []))))
     = [].
Proof.
  assert (H1 : obj_projectPath (Demo.path_option "/nowhere") = Some "/nowhere")
    by reflexivity.
  assert (H2 : existsSync
                 (path_resolve Demo.plain
                    (cwd (world (Demo.start Demo.plain (Demo.world_of [] [])))) "/nowhere")
                 (world (Demo.start Demo.plain (Demo.world_of [] []))) = false)
    by (vm_compute; reflexivity).
  destruct (configure_missing_projectPath_throws Demo.plain _ _ _ H1 H2)
    as (_ & _ & _ & Hthrow & Htrace & _).
  split; [exact H1|split; [exact H2|split; [exact Hthrow|exact Htrace]]].
Defined.

(** Options for iOS only, and a build for Android. *)
Lemma getCallArgs_missing_entry_witness :
  getCallArgs (PStr "android") (AObj {[ "ios" := ["--device"] ]})
    = Some (MkCallArgs ["android"] None)
  /\ getCallArgs (PArr ["android"; "ios"]) (AObj {[ "ios" := ["--device"] ]}) = None.
Proof.
  assert (H1 : ({[ "ios" := ["--device"] ]} : gmap string (list string)) !! "android" = None)
    by (vm_compute; reflexivity).
  assert (H2 : length (platform_list (PArr ["android"; "ios"])) <> 1)
    by (simpl; lia).
  destruct (getCallArgs_missing_entry_is_undefined Demo.plain Demo.lib_5_1_1 "android" _
              (PArr ["android"; "ios"]) (AObj {[ "ios" := ["--device"] ]})
              (Demo.start Demo.plain (Demo.world_of [] [])) H1 H2)
    as (Hstr & _ & _ & Hmany).
  split; [exact Hstr|exact Hmany].
Defined.

(** A project without a VERSION file for iOS. *)
Lemma createIpa_noop_witness :
  fst (ios_platform_version Demo.plain (Demo.start Demo.plain (Demo.world_of [] [])))
    = Ok "4.0.0"
  /\ semver_lt Demo.plain "4.0.0" "3.9.0" = Some false
  /\ createIpa Demo.plain tt (AArr ["--sign"]) (Demo.start Demo.plain (Demo.world_of [] []))
     = (Ok (Fulfilled tt),
        emit (ConsoleLog auto_ipa_note) (Demo.start Demo.plain (Demo.world_of [] []))).
Proof.
  assert (H1 : fst (ios_platform_version Demo.plain
                      (Demo.start Demo.plain (Demo.world_of [] []))) = Ok "4.0.0")
    by (vm_compute; reflexivity).
  assert (H2 : semver_lt Demo.plain "4.0.0" "3.9.0" = Some false)
    by (vm_compute; reflexivity).
  split; [exact H1|split; [exact H2|]].
  exact (proj1 (proj2 (createIpa_noop_from_3_9_0 Demo.plain tt (AArr ["--sign"]) _ _ H1 H2))).
Defined.

(** cordova-ios 3.8.0 and no bundle in the build directory. *)
Lemma createIpa_skip_witness :
  fst (ios_platform_version Demo.plain (Demo.start Demo.plain Demo.old_ios)) = Ok "3.8.0"
  /\ semver_lt Demo.plain "3.8.0" "3.9.0" = Some true
  /\ glob Demo.plain (app_pattern (Demo.start Demo.plain Demo.old_ios))
       (world (Demo.start Demo.plain Demo.old_ios)) = inr []
  /\ packageProject_then Demo.plain ["ios"] AUndef Demo.lib_5_1_1
       (Demo.start Demo.plain Demo.old_ios)
     = (Ok Pending,
        emit (ConsoleWarn (skip_note 0)) (Demo.start Demo.plain Demo.old_ios)).
Proof.
  assert (H1 : fst (ios_platform_version Demo.plain (Demo.start Demo.plain Demo.old_ios))
               = Ok "3.8.0") by (vm_compute; reflexivity).
  assert (H2 : semver_lt Demo.plain "3.8.0" "3.9.0" = Some true)
    by (vm_compute; reflexivity).
  assert (H3 : glob Demo.plain (app_pattern (Demo.start Demo.plain Demo.old_ios))
                 (world (Demo.start Demo.plain Demo.old_ios)) = inr [])
    by reflexivity.
  assert (H4 : length (@nil string) <> 1) by (simpl; lia).
  split; [exact H1|split; [exact H2|split; [exact H3|]]].
  assert (H5 : In "ios" ["ios"]) by (simpl; auto).
  exact (proj2 (proj2 (createIpa_skip_never_settles Demo.plain tt Demo.lib_5_1_1 AUndef
                         ["ios"] _ _ _ H1 H2 H3 H4 H5))).
Defined.

(** cordova-ios 3.8.0, one bundle, and two options for iOS that are not
    passed on. *)
Lemma packageProject_bare_command_witness :
  fst (ios_platform_version Demo.one_bundle (Demo.start Demo.plain Demo.old_ios)) = Ok "3.8.0"
  /\ semver_lt Demo.one_bundle "3.8.0" "3.9.0" = Some true
  /\ glob Demo.one_bundle (app_pattern (Demo.start Demo.plain Demo.old_ios))
       (world (Demo.start Demo.plain Demo.old_ios)) = inr [Demo.app]
  /\ In "ios" ["android"; "ios"]
  /\ exists rest,
       commands (snd (packageProject_then Demo.one_bundle ["android"; "ios"]
                        (AObj {[ "ios" := ["--sign"; "me"] ]}) Demo.lib_5_1_1
                        (Demo.start Demo.plain Demo.old_ios)))
       = commands (Demo.start Demo.plain Demo.old_ios)
         ++ (ipa_command Demo.one_bundle Demo.app, None) :: rest
       /\ Forall (bare Demo.one_bundle) rest.
Proof.
  assert (H1 : fst (ios_platform_version Demo.one_bundle (Demo.start Demo.plain Demo.old_ios))
               = Ok "3.8.0") by (vm_compute; reflexivity).
  assert (H2 : semver_lt Demo.one_bundle "3.8.0" "3.9.0" = Some true)
    by (vm_compute; reflexivity).
  assert (H3 : glob Demo.one_bundle (app_pattern (Demo.start Demo.plain Demo.old_ios))
                 (world (Demo.start Demo.plain Demo.old_ios)) = inr [Demo.app])
    by reflexivity.
  assert (H4 : In "ios" ["android"; "ios"]) by (simpl; auto).
  split; [exact H1|split; [exact H2|split; [exact H3|split; [exact H4|]]]].
  exact (packageProject_then_runs_bare_command Demo.one_bundle Demo.lib_5_1_1
           (AObj {[ "ios" := ["--sign"; "me"] ]}) ["android"; "ios"] _ _ _ H1 H2 H3 H4).
Defined.

(** A first setup that installs 5.1.1, and a second one that asks for
    5.1.1 again. *)
Lemma setupCordova_twice_witness :
  setupCordova Demo.plain None (Demo.start Demo.plain (Demo.world_of [] []))
    = (Ok (Fulfilled Demo.lib_5_1_1),
       snd (setupCordova Demo.plain None (Demo.start Demo.plain (Demo.world_of [] []))))
  /\ trace (snd (setupCordova Demo.plain (Some (Demo.version_option "5.1.1"))
                   (snd (setupCordova Demo.plain None
                           (Demo.start Demo.plain (Demo.world_of [] []))))))
     = trace (snd (setupCordova Demo.plain None
                     (Demo.start Demo.plain (Demo.world_of [] [])))).
Proof.
  assert (H1 : setupCordova Demo.plain None (Demo.start Demo.plain (Demo.world_of [] []))
               = (Ok (Fulfilled Demo.lib_5_1_1),
                  snd (setupCordova Demo.plain None
                         (Demo.start Demo.plain (Demo.world_of [] [])))))
    by (vm_compute; reflexivity).
  assert (H2 : same_version (Some (Demo.version_option "5.1.1"))
                 (snd (setupCordova Demo.plain None
                         (Demo.start Demo.plain (Demo.world_of [] [])))))
    by (vm_compute; reflexivity).
  split; [exact H1|].
  exact (proj1 (setupCordova_twice_installs_once Demo.plain None
                  (Some (Demo.version_option "5.1.1")) _ _ _ H1 H2)).
Defined.

(** The same inputs, from [packageProject] down: the first setup
    installs, then the packaging step runs. *)
Example packageProject_pending :
  fst (packageProject Demo.plain (PArr ["ios"; "android"]) AUndef
         (Demo.start Demo.plain Demo.old_ios)) = Ok Pending.
Proof. vm_compute. reflexivity. Qed.

Example packageProject_drops_options :
  commands (snd (packageProject Demo.one_bundle (PStr "ios") (AArr ["--sign"; "me"])
                   (Demo.start Demo.plain Demo.old_ios)))
  = [("cordova", Some "/home/me/.cordova-cache/5.1.1");
     ("xcrun -sdk iphoneos PackageApplication " +:+ dquote +:+ Demo.app +:+ dquote
      +:+ " -o " +:+ dquote +:+ "/app/platforms/ios/build/device/My.ipa" +:+ dquote +:+ " ",
      None)].
Proof. vm_compute. reflexivity. Qed.

(** Three platforms, one of them registered already. *)
Example buildProject_three_platforms :
  steps (trace (snd (buildProject_then Demo.plain ["android"; "ios"; "windows"]
                       (AObj {[ "android" := ["--release"]; "ios" := [] ]})
                       Demo.lib_5_1_1
                       (Demo.start Demo.plain Demo.ios_added))))
  = [PlatformAdd Demo.lib_5_1_1 "android"; Resolves;
     PlatformAdd Demo.lib_5_1_1 "windows"; Resolves;
     BuildCall Demo.lib_5_1_1 (MkCallArgs ["android"] (Some ["--release"])); Resolves;
     BuildCall Demo.lib_5_1_1 (MkCallArgs ["ios"] (Some [])); Resolves;
     BuildCall Demo.lib_5_1_1 (MkCallArgs ["windows"] None); Resolves].
Proof. vm_compute. reflexivity. Qed.

(** A registration that is rejected ends the sequence: no build is
    called. *)
Example buildProject_rejected_registration :
  fst (buildProject (Demo.rejecting "ios") (PArr ["android"; "ios"; "windows"]) AUndef
         (Demo.start Demo.plain (Demo.world_of [] [])))
    = Ok (Rejected "Platform not supported")
  /\ calls (steps (trace (snd (buildProject (Demo.rejecting "ios")
                                 (PArr ["android"; "ios"; "windows"]) AUndef
                                 (Demo.start Demo.plain (Demo.world_of [] []))))))
     = [PlatformAdd Demo.lib_5_1_1 "android"; PlatformAdd Demo.lib_5_1_1 "ios"].
Proof. vm_compute. split; reflexivity. Qed.

(** A build that Cordova rejects ends the sequence: the platforms
    after it are not built, and the rejection is the result. *)
Example buildProject_rejected_build :
  fst (buildProject_then (Demo.unbuildable "ios") ["android"; "ios"; "windows"] AUndef
         Demo.lib_5_1_1 (Demo.start Demo.plain Demo.ios_added))
    = Ok (Rejected "Build failed")
  /\ steps (trace (snd (buildProject_then (Demo.unbuildable "ios")
                          ["android"; "ios"; "windows"] AUndef Demo.lib_5_1_1
                          (Demo.start Demo.plain Demo.ios_added))))
     = [PlatformAdd Demo.lib_5_1_1 "android"; Resolves;
        PlatformAdd Demo.lib_5_1_1 "windows"; Resolves;
        BuildCall Demo.lib_5_1_1 (MkCallArgs ["android"] (Some [])); Resolves;
        BuildCall Demo.lib_5_1_1 (MkCallArgs ["ios"] (Some [])); Rejects "Build failed"].
Proof. vm_compute. split; reflexivity. Qed.

(** C1 (as the code behaves). Whatever the options and the state,
    [setupCordova] runs no command or exactly one, and that one is the
    bare word [cordova]: the condition of the conditional on lines 81-83
    is a non-empty string, so [npm install], the package name, the [@]
    and the version never reach the command, on either side of 3.7.0.
    On a cache miss for 5.1.1 and for 3.6.0 the command run is
    [cordova]. *)
Theorem setupCordova_installs_bare_cordova :
  (forall (h : Host) (obj : option Options) (s : State) (lt : bool) (version : string),
      install_command lt version = "cordova"
      /\ (commands (snd (setupCordova h obj s)) = commands s
          \/ exists dir,
               commands (snd (setupCordova h obj s)) = commands s ++ [("cordova", Some dir)]))
  /\ commands (snd (setupCordova Demo.plain (Some (Demo.version_option "5.1.1"))
                      (Demo.start Demo.plain (Demo.world_of [] []))))
     = [("cordova", Some "/home/me/.cordova-cache/5.1.1")]
  /\ commands (snd (setupCordova Demo.plain (Some (Demo.version_option "3.6.0"))
                      (Demo.start Demo.plain (Demo.world_of [] []))))
     = [("cordova", Some "/home/me/.cordova-cache/3.6.0")].
Proof.
  split; [|split; vm_compute; reflexivity].
  intros h obj s lt version.
  split; [apply install_command_cordova|apply setupCordova_installs].
Qed.

(** ** The further properties on concrete inputs *)

(** A missing project path, then a call that only sets the version. *)
Lemma configure_failure_persists_witness :
  fst (configure Demo.plain (Demo.path_option "/nowhere")
         (Demo.start Demo.plain (Demo.world_of [] [])))
    = Throw (missing_path_error "/nowhere")
  /\ obj_projectPath (Demo.version_option "4.0.0") = None
  /\ fst (configure Demo.plain (Demo.version_option "4.0.0")
            (snd (configure Demo.plain (Demo.path_option "/nowhere")
                    (Demo.start Demo.plain (Demo.world_of [] [])))))
     = Throw (missing_path_error "/nowhere").
Proof.
  assert (H1 : fst (configure Demo.plain (Demo.path_option "/nowhere")
                      (Demo.start Demo.plain (Demo.world_of [] [])))
               = Throw (missing_path_error "/nowhere")) by (vm_compute; reflexivity).
  assert (H2 : obj_projectPath (Demo.version_option "4.0.0") = None) by reflexivity.
  split; [exact H1|split; [exact H2|]].
  exact (proj1 (configure_failure_persists Demo.plain _ _ _ _ H1 H2)).
Defined.

(** Version 3.6.0 is set; the project's taco.json asks for 4.3.0. *)
Lemma setupCordova_keeps_version_witness :
  cordovaVersion (Demo.wanting "3.6.0" Demo.with_taco) = Some "3.6.0"
  /\ cordovaVersion (snd (setupCordova Demo.asks_4_3_0 None
                            (Demo.wanting "3.6.0" Demo.with_taco))) = Some "3.6.0".
Proof.
  assert (H1 : cordovaVersion (Demo.wanting "3.6.0" Demo.with_taco) = Some "3.6.0")
    by (vm_compute; reflexivity).
  split; [exact H1|].
  exact (setupCordova_keeps_version Demo.asks_4_3_0 None _ _ H1 eq_refl).
Defined.

(** The cache holds 5.1.1 and 5.1.1 is wanted. *)
Lemma setupCordova_directory_hit_witness :
  cordovaVersion (Demo.wanting "5.1.1" Demo.cached) = Some "5.1.1"
  /\ existsSync (module_path Demo.plain (Demo.wanting "5.1.1" Demo.cached) "5.1.1")
       (world (Demo.wanting "5.1.1" Demo.cached)) = true
  /\ commands (snd (setupCordova Demo.plain None (Demo.wanting "5.1.1" Demo.cached)))
     = commands (Demo.wanting "5.1.1" Demo.cached).
Proof.
  assert (H1 : cordovaVersion (Demo.wanting "5.1.1" Demo.cached) = Some "5.1.1")
    by (vm_compute; reflexivity).
  assert (H2 : existsSync (cordovaCache (Demo.wanting "5.1.1" Demo.cached))
                 (world (Demo.wanting "5.1.1" Demo.cached)) = true)
    by (vm_compute; reflexivity).
  assert (H3 : existsSync (module_path Demo.plain (Demo.wanting "5.1.1" Demo.cached) "5.1.1")
                 (world (Demo.wanting "5.1.1" Demo.cached)) = true)
    by (vm_compute; reflexivity).
  split; [exact H1|split; [exact H3|]].
  exact (setupCordova_directory_hit Demo.plain _ _ H1 H2 H3).
Defined.

(** An empty cache and a command that fails. *)
Lemma setupCordova_install_rejected_witness :
  cordovaVersion (Demo.wanting "5.1.1" Demo.empty_cache) = Some "5.1.1"
  /\ fst (child_exec Demo.failing "cordova"
            (Some (module_path Demo.failing (Demo.wanting "5.1.1" Demo.empty_cache) "5.1.1"))
            (install_world Demo.failing (Demo.wanting "5.1.1" Demo.empty_cache) "5.1.1"))
     = Rejected "npm ERR!"
  /\ fst (setupCordova Demo.failing None (Demo.wanting "5.1.1" Demo.empty_cache))
     = Ok (Rejected "npm ERR!").
Proof.
  assert (H1 : cordovaVersion (Demo.wanting "5.1.1" Demo.empty_cache) = Some "5.1.1")
    by (vm_compute; reflexivity).
  assert (H2 : fst (child_exec Demo.failing "cordova"
                      (Some (module_path Demo.failing
                               (Demo.wanting "5.1.1" Demo.empty_cache) "5.1.1"))
                      (install_world Demo.failing
                         (Demo.wanting "5.1.1" Demo.empty_cache) "5.1.1"))
               = Rejected "npm ERR!") by reflexivity.
  split; [exact H1|split; [exact H2|]].
  refine (proj1 (setupCordova_install_rejected Demo.failing _ "5.1.1" _ false
                   _ H1 _ _ _ _ _ H2)); vm_compute; reflexivity.
Defined.

(** A version that is no version. *)
Lemma setupCordova_invalid_version_witness :
  cordovaVersion (Demo.wanting "latest" Demo.cached) = Some "latest"
  /\ semver_lt Demo.plain "latest" "3.7.0" = None
  /\ commands (snd (setupCordova Demo.plain None (Demo.wanting "latest" Demo.cached)))
     = commands (Demo.wanting "latest" Demo.cached).
Proof.
  assert (H0 : cdv (Demo.wanting "latest" Demo.cached) = None) by (vm_compute; reflexivity).
  assert (H1 : cordovaVersion (Demo.wanting "latest" Demo.cached) = Some "latest")
    by (vm_compute; reflexivity).
  assert (H2 : semver_lt Demo.plain "latest" "3.7.0" = None) by (vm_compute; reflexivity).
  split; [exact H1|split; [exact H2|]].
  exact (proj1 (proj2 (setupCordova_invalid_version_throws Demo.plain _ _ H0 H1 H2))).
Defined.

(** Cordova 5.1.1 from the cache: the package is [cordova-lib]. *)
Lemma getCordova_loads_witness :
  already_loaded (Demo.wanting "5.1.1" Demo.cached) = None
  /\ semver_lt Demo.plain "5.1.1" "3.7.0" = Some false
  /\ package_dir Demo.plain (Demo.wanting "5.1.1" Demo.cached) "5.1.1" false
     = "/home/me/.cordova-cache/5.1.1/node_modules/cordova-lib"
  /\ loadedCordovaVersion (snd (getCordova Demo.plain (Demo.wanting "5.1.1" Demo.cached)))
     = Some "5.1.1".
Proof.
  assert (H0 : already_loaded (Demo.wanting "5.1.1" Demo.cached) = None)
    by (vm_compute; reflexivity).
  assert (H1 : cordovaVersion (Demo.wanting "5.1.1" Demo.cached) = Some "5.1.1")
    by (vm_compute; reflexivity).
  assert (H2 : chdir_error Demo.plain (projectPath (Demo.wanting "5.1.1" Demo.cached))
                 (world (Demo.wanting "5.1.1" Demo.cached)) = None) by reflexivity.
  assert (H3 : semver_lt Demo.plain "5.1.1" "3.7.0" = Some false)
    by (vm_compute; reflexivity).
  split; [exact H0|split; [exact H3|split; [vm_compute; reflexivity|]]].
  exact (proj1 (getCordova_loads Demo.plain _ _ _ H0 H1 H2 H3)).
Defined.

(** The support plugin is rejected; the next setup is fulfilled. *)
Lemma getCordova_returns_loaded_witness :
  getCordova Demo.no_plugin (Demo.wanting "5.1.1" Demo.cached)
    = (Ok (Rejected "Plugin failed"),
       snd (getCordova Demo.no_plugin (Demo.wanting "5.1.1" Demo.cached)))
  /\ exists c,
       cdv (snd (getCordova Demo.no_plugin (Demo.wanting "5.1.1" Demo.cached))) = Some c
       /\ setupCordova Demo.no_plugin None
            (snd (getCordova Demo.no_plugin (Demo.wanting "5.1.1" Demo.cached)))
          = (Ok (Fulfilled c),
             snd (getCordova Demo.no_plugin (Demo.wanting "5.1.1" Demo.cached))).
Proof.
  assert (H1 : getCordova Demo.no_plugin (Demo.wanting "5.1.1" Demo.cached)
               = (Ok (Rejected "Plugin failed"),
                  snd (getCordova Demo.no_plugin (Demo.wanting "5.1.1" Demo.cached))))
    by (vm_compute; reflexivity).
  split; [exact H1|].
  destruct (getCordova_returns_loaded Demo.no_plugin _ _ _ H1) as (c & Hc & _ & Hs & _).
  exists c. split; [exact Hc|exact Hs].
Defined.

(** 5.1.1 is loaded, 4.0.0 is wanted and cannot be loaded. *)
Lemma getCordova_throw_keeps_module_witness :
  cdv (snd (configure Demo.plain (Demo.version_option "4.0.0") Demo.loaded_5_1_1))
    = Some Demo.lib_5_1_1
  /\ fst (getCordova Demo.unloadable
            (snd (configure Demo.plain (Demo.version_option "4.0.0") Demo.loaded_5_1_1)))
     = Throw "Error: Cannot find module"
  /\ setupCordova Demo.unloadable None
       (snd (getCordova Demo.unloadable
               (snd (configure Demo.plain (Demo.version_option "4.0.0") Demo.loaded_5_1_1))))
     = (Ok (Fulfilled Demo.lib_5_1_1),
        snd (getCordova Demo.unloadable
               (snd (configure Demo.plain (Demo.version_option "4.0.0")
                       Demo.loaded_5_1_1)))).
Proof.
  assert (H1 : cdv (snd (configure Demo.plain (Demo.version_option "4.0.0")
                           Demo.loaded_5_1_1)) = Some Demo.lib_5_1_1)
    by (vm_compute; reflexivity).
  assert (H2 : fst (getCordova Demo.unloadable
                      (snd (configure Demo.plain (Demo.version_option "4.0.0")
                              Demo.loaded_5_1_1)))
               = Throw "Error: Cannot find module") by (vm_compute; reflexivity).
  split; [exact H1|split; [exact H2|]].
  exact (proj2 (proj2 (proj2 (proj2
           (getCordova_throw_keeps_module Demo.unloadable _ _ _ H1 H2))))).
Defined.

(** A build of Android that is fulfilled. *)
Lemma buildProject_then_fulfilled_witness :
  buildProject_then Demo.plain ["android"] AUndef Demo.lib_5_1_1 Demo.loaded_5_1_1
    = (Ok (Fulfilled tt),
       snd (buildProject_then Demo.plain ["android"] AUndef Demo.lib_5_1_1
              Demo.loaded_5_1_1))
  /\ all_resolve Demo.plain
       (build_plan Demo.plain Demo.lib_5_1_1 ["android"] AUndef Demo.loaded_5_1_1)
       (world Demo.loaded_5_1_1)
  /\ world (snd (buildProject_then Demo.plain ["android"] AUndef Demo.lib_5_1_1
                   Demo.loaded_5_1_1))
     = plan_world
         (run_plan Demo.plain
            (build_plan Demo.plain Demo.lib_5_1_1 ["android"] AUndef Demo.loaded_5_1_1)
            (world Demo.loaded_5_1_1))
  /\ exists run,
       trace (snd (buildProject_then Demo.plain ["android"] AUndef Demo.lib_5_1_1
                     Demo.loaded_5_1_1))
       = trace Demo.loaded_5_1_1
         ++ already_added_notes Demo.plain Demo.loaded_5_1_1 ["android"] ++ run
       /\ steps run
          = flat_map (fun e => [e; Resolves])
              (build_plan Demo.plain Demo.lib_5_1_1 ["android"] AUndef Demo.loaded_5_1_1).
Proof.
  assert (H1 : buildProject_then Demo.plain ["android"] AUndef Demo.lib_5_1_1
                 Demo.loaded_5_1_1
               = (Ok (Fulfilled tt),
                  snd (buildProject_then Demo.plain ["android"] AUndef Demo.lib_5_1_1
                         Demo.loaded_5_1_1))) by (vm_compute; reflexivity).
  split; [exact H1|].
  exact (buildProject_then_fulfilled_complete Demo.plain _ _ _ _ _ H1).
Defined.

(** Android and Windows need no package. *)
Lemma packageProject_other_platforms_witness :
  ~ In "ios" (platform_list (PArr ["android"; "windows"]))
  /\ fst (packageProject Demo.plain (PArr ["android"; "windows"]) AUndef Demo.loaded_5_1_1)
     = Ok (Fulfilled tt).
Proof.
  assert (H1 : ~ In "ios" (platform_list (PArr ["android"; "windows"]))).
  { simpl. intros [H|[H|[]]]; discriminate. }
  split; [exact H1|].
  rewrite (packageProject_other_platforms Demo.plain _ AUndef Demo.loaded_5_1_1 H1).
  vm_compute. reflexivity.
Defined.

(** A project without a VERSION file: cordova-ios counts as 4.0.0. *)
Lemma packageProject_then_recent_ios_witness :
  fst (ios_platform_version Demo.one_bundle Demo.loaded_5_1_1) = Ok "4.0.0"
  /\ semver_lt Demo.one_bundle "4.0.0" "3.9.0" = Some false
  /\ commands (snd (packageProject_then Demo.one_bundle ["ios"; "android"; "ios"]
                      (AArr ["--sign"]) Demo.lib_5_1_1 Demo.loaded_5_1_1))
     = commands Demo.loaded_5_1_1.
Proof.
  assert (H1 : fst (ios_platform_version Demo.one_bundle Demo.loaded_5_1_1) = Ok "4.0.0")
    by (vm_compute; reflexivity).
  assert (H2 : semver_lt Demo.one_bundle "4.0.0" "3.9.0" = Some false)
    by (vm_compute; reflexivity).
  split; [exact H1|split; [exact H2|]].
  exact (proj2 (packageProject_then_recent_ios Demo.one_bundle _ _ _ _ _ H1 H2)).
Defined.

(** cordova-ios 3.8.0, one bundle, and two options handed to
    [createIpa] itself. *)
Lemma createIpa_appends_options_witness :
  fst (ios_platform_version Demo.one_bundle (Demo.start Demo.plain Demo.old_ios)) = Ok "3.8.0"
  /\ options_for "ios" (AArr ["--sign"; "me"]) = Some ["--sign"; "me"]
  /\ commands (snd (createIpa Demo.one_bundle Demo.lib_5_1_1 (AArr ["--sign"; "me"])
                      (Demo.start Demo.plain Demo.old_ios)))
     = commands (Demo.start Demo.plain Demo.old_ios)
       ++ [(ipa_command Demo.one_bundle Demo.app +:+ " --sign me", None)].
Proof.
  assert (H1 : fst (ios_platform_version Demo.one_bundle (Demo.start Demo.plain Demo.old_ios))
               = Ok "3.8.0") by (vm_compute; reflexivity).
  assert (H2 : semver_lt Demo.one_bundle "3.8.0" "3.9.0" = Some true)
    by (vm_compute; reflexivity).
  assert (H3 : glob Demo.one_bundle (app_pattern (Demo.start Demo.plain Demo.old_ios))
                 (world (Demo.start Demo.plain Demo.old_ios)) = inr [Demo.app])
    by reflexivity.
  assert (H4 : options_for "ios" (AArr ["--sign"; "me"]) = Some ["--sign"; "me"])
    by reflexivity.
  split; [exact H1|split; [exact H4|]].
  rewrite (proj1 (createIpa_appends_options Demo.one_bundle Demo.lib_5_1_1
                    (AArr ["--sign"; "me"]) _ _ _ _ H1 H2 H3 H4)).
  vm_compute. reflexivity.
Defined.
